(** * ComMod: the mod compatibility engine of [mod.py]

    A shallow embedding of the class [Mod] of [src/mod.py] (version parsing
    and comparison, prerequisite / incompatible resolution, reinstall
    verdicts, the install copy plan and manifest validation), followed by
    the properties established about it.

    Conventions of the embedding.
    - A Python [str] is a Rocq [string]; the development is about ASCII
      text, for which [str.isnumeric] is "non-empty and made of the digits
      0-9", [int] reads such a string in base ten, and [<] on strings is
      the byte-wise lexicographic order.
    - A raised Python exception is a value of [exn]; a computation that may
      raise returns an [outcome].
    - Methods that mutate attributes of the mod thread a [World].
    - The installed-mods manifest and the entries of [prerequisites] and
      [incompatible] are taken in the shape [Mod.__init__] and the installer
      give them: string keys, string values, lists of strings. The raw
      manifest handed to [validate_install_config] is an arbitrary [yaml]
      value.
    - The imported helpers whose code is outside [mod.py] ([tr],
      [fconsole], [remove_colors], [copy_from_to], [os.path]) and the
      iteration order of a [set] are the fields of the class [Env].
      Logging and console output are left out. *)

From Stdlib Require Import String Ascii List Bool ZArith QArith Lia.
Import ListNotations.
Local Open Scope list_scope.
Local Open Scope string_scope.

Set Implicit Arguments.

(** ** Exceptions and the error monad *)

(** The exception classes the modelled code can raise; every one of them is
    a subclass of Python's [Exception]. [ExternalError] stands for whatever
    an imported helper raises. *)
Inductive exn : Type :=
| AttributeError
| KeyError
| TypeError
| IndexError
| ValueError
| NotImplementedError
| ExternalError.

Inductive outcome (A : Type) : Type :=
| Ret (a : A)
| Raise (e : exn).
Arguments Ret {A} a.
Arguments Raise {A} e.

Definition obind {A B} (c : outcome A) (k : A -> outcome B) : outcome B :=
  match c with
  | Ret a => k a
  | Raise e => Raise e
  end.

Declare Scope py_scope.
Delimit Scope py_scope with py.
Notation "x <- c ;; k" := (obind c (fun x => k))
  (at level 61, c at next level, right associativity) : py_scope.
Notation "' pat <- c ;; k" := (obind c (fun x => match x with pat => k end))
  (at level 61, pat pattern, c at next level, right associativity) : py_scope.

(** [l.append(x)] *)
Definition append {A} (l : list A) (x : A) : list A := (l ++ [x])%list.

(** [for x in l: acc = body(acc, x)], stopping at the first exception. *)
Fixpoint for_each {A S} (body : S -> A -> outcome S) (l : list A) (acc : S)
  : outcome S :=
  match l with
  | [] => Ret acc
  | x :: rest => obind (body acc x) (for_each body rest)
  end.

(** ** Python string primitives *)

Module Py.

Definition is_digit (c : ascii) : bool :=
  let n := nat_of_ascii c in (48 <=? n)%nat && (n <=? 57)%nat.

Fixpoint all_chars (p : ascii -> bool) (s : string) : bool :=
  match s with
  | EmptyString => true
  | String c s' => p c && all_chars p s'
  end.

(** [s.isnumeric()]: false on the empty string. *)
Definition isnumeric (s : string) : bool :=
  match s with
  | EmptyString => false
  | _ => all_chars is_digit s
  end.

Fixpoint int_acc (acc : Z) (s : string) : Z :=
  match s with
  | EmptyString => acc
  | String c s' => int_acc (10 * acc + (Z.of_nat (nat_of_ascii c) - 48)) s'
  end.

(** [int(s)] for a string of decimal digits (the only use in [mod.py] is
    under the [is_numeric] guard). *)
Definition int (s : string) : Z := int_acc 0 s.

(** [s[:n]] *)
Fixpoint take (n : nat) (s : string) : string :=
  match n, s with
  | O, _ => EmptyString
  | _, EmptyString => EmptyString
  | S n', String c s' => String c (take n' s')
  end.

(** [s[n:]] *)
Fixpoint drop (n : nat) (s : string) : string :=
  match n, s with
  | O, _ => s
  | _, EmptyString => EmptyString
  | S n', String _ s' => drop n' s'
  end.

(** [s.find(c)] for a one-character needle; [None] is Python's [-1]. *)
Fixpoint find (c : ascii) (s : string) : option nat :=
  match s with
  | EmptyString => None
  | String d s' =>
      if Ascii.eqb d c then Some O else option_map S (find c s')
  end.

(** [c in s] for a one-character needle. *)
Definition contains (c : ascii) (s : string) : bool :=
  match find c s with Some _ => true | None => false end.

(** [s.split(sep)] for a one-character separator: never empty. *)
Fixpoint split (sep : ascii) (s : string) : list string :=
  match s with
  | EmptyString => [EmptyString]
  | String c s' =>
      if Ascii.eqb c sep then EmptyString :: split sep s'
      else match split sep s' with
           | [] => [String c EmptyString]
           | w :: ws => String c w :: ws
           end
  end.

(** [s.replace(c, '')] for a one-character needle. *)
Fixpoint remove (c : ascii) (s : string) : string :=
  match s with
  | EmptyString => EmptyString
  | String d s' => if Ascii.eqb d c then remove c s' else String d (remove c s')
  end.

(** [sep.join(l)] *)
Fixpoint join (sep : string) (l : list string) : string :=
  match l with
  | [] => EmptyString
  | [x] => x
  | x :: rest => x ++ sep ++ join sep rest
  end.

Definition lower_char (c : ascii) : ascii :=
  let n := nat_of_ascii c in
  if (65 <=? n)%nat && (n <=? 90)%nat then ascii_of_nat (n + 32) else c.

Definition upper_char (c : ascii) : ascii :=
  let n := nat_of_ascii c in
  if (97 <=? n)%nat && (n <=? 122)%nat then ascii_of_nat (n - 32) else c.

Fixpoint map_chars (f : ascii -> ascii) (s : string) : string :=
  match s with
  | EmptyString => EmptyString
  | String c s' => String (f c) (map_chars f s')
  end.

(** [s.lower()] *)
Definition lower (s : string) : string := map_chars lower_char s.

(** [s.capitalize()] *)
Definition capitalize (s : string) : string :=
  match s with
  | EmptyString => EmptyString
  | String c s' => String (upper_char c) (lower s')
  end.

Fixpoint lstrip_chars (p : ascii -> bool) (s : string) : string :=
  match s with
  | EmptyString => EmptyString
  | String c s' => if p c then lstrip_chars p s' else s
  end.

Fixpoint rev_string (acc s : string) : string :=
  match s with
  | EmptyString => acc
  | String c s' => rev_string (String c acc) s'
  end.

(** [s.strip(chars)]: drops the characters satisfying [p] at both ends. *)
Definition strip_chars (p : ascii -> bool) (s : string) : string :=
  rev_string EmptyString
    (lstrip_chars p (rev_string EmptyString (lstrip_chars p s))).

Definition is_newline (c : ascii) : bool := Ascii.eqb c "010"%char.

Definition is_space (c : ascii) : bool :=
  let n := nat_of_ascii c in
  ((9 <=? n)%nat && (n <=? 13)%nat) || ((28 <=? n)%nat && (n <=? 32)%nat).

(** [s.strip()] *)
Definition strip (s : string) : string := strip_chars is_space s.

(** [a < b] on [str]: lexicographic on code points. *)
Fixpoint str_lt (a b : string) : bool :=
  match a, b with
  | _, EmptyString => false
  | EmptyString, String _ _ => true
  | String c a', String d b' =>
      let n := nat_of_ascii c in
      let m := nat_of_ascii d in
      if (n <? m)%nat then true
      else if (m <? n)%nat then false
      else str_lt a' b'
  end.

(** [a > b] on [str]. *)
Definition str_gt (a b : string) : bool := str_lt b a.

(** [x in l] for a list of strings. *)
Definition str_in (x : string) (l : list string) : bool :=
  existsb (String.eqb x) l.

(** Truthiness of an optional list: [None] and [[]] are falsy. *)
Definition truthy {A} (o : option (list A)) : bool :=
  match o with
  | Some (_ :: _) => true
  | _ => false
  end.

End Py.

(** ** [Mod.Version] *)

Record Version : Type := MkVersion {
  major : string;
  minor : string;
  patch : string;
  identifier : string
}.

(** [Version.__init__(version_str)] *)
Definition Version_init (version_str : string) : Version :=
  let identifier_index := Py.find "-"%char version_str in
  let has_minor_ver := Py.contains "."%char version_str in
  let '(ident, numeric_version) :=
    match identifier_index with
    | Some i => (Py.drop (i + 1) version_str, Py.take i version_str)
    | None => (EmptyString, version_str)
    end in
  if has_minor_ver then
    let version_split := Py.split "."%char numeric_version in
    let version_levels := length version_split in
    let major0 :=
      if (0 <? version_levels)%nat then Py.take 4 (nth 0 version_split "") else "0" in
    let minor0 :=
      if (1 <? version_levels)%nat then Py.take 4 (nth 1 version_split "") else "0" in
    let patch0 :=
      if (2 <? version_levels)%nat then Py.take 10 (nth 2 version_split "") else "0" in
    let patch1 :=
      if (3 <? version_levels)%nat
      then String.concat "" (skipn 2 version_split) else patch0 in
    MkVersion major0 minor0 patch1 ident
  else
    MkVersion numeric_version "0" "0" ident.

(** The attribute [is_numeric], set once by [__init__] from the three
    components, which are never reassigned afterwards. *)
Definition is_numeric (v : Version) : bool :=
  forallb Py.isnumeric [major v; minor v; patch v].

(** [Version.__str__] *)
Definition Version_str (v : Version) : string :=
  let version := major v ++ "." ++ minor v ++ "." ++ patch v in
  match identifier v with
  | EmptyString => version
  | i => version ++ "-" ++ i
  end.

Definition int_triple (v : Version) : Z * Z * Z :=
  (Py.int (major v), Py.int (minor v), Py.int (patch v)).

Definition lower_triple (v : Version) : string * string * string :=
  (Py.lower (major v), Py.lower (minor v), Py.lower (patch v)).

(** Python's [==] and [<] on 3-tuples. *)
Definition triple_eqb {A} (eqb : A -> A -> bool) (x y : A * A * A) : bool :=
  let '(x1, x2, x3) := x in
  let '(y1, y2, y3) := y in
  eqb x1 y1 && eqb x2 y2 && eqb x3 y3.

Definition triple_ltb {A} (eqb ltb : A -> A -> bool) (x y : A * A * A) : bool :=
  let '(x1, x2, x3) := x in
  let '(y1, y2, y3) := y in
  if negb (eqb x1 y1) then ltb x1 y1
  else if negb (eqb x2 y2) then ltb x2 y2
  else ltb x3 y3.

(** [Version.__eq__]: the non-numeric branch compares [self] with [self].
    Both operands are versions, so [NotImplemented] is never the answer. *)
Definition Version_eq (self other : Version) : bool :=
  if is_numeric self && is_numeric other then
    triple_eqb Z.eqb (int_triple self) (int_triple other)
  else
    triple_eqb String.eqb (lower_triple self) (lower_triple self).

(** [Version.__lt__]: the non-numeric branch evaluates [self.major.lower()],
    [self.minor.lower()] and then the attribute [self.path], which no
    [Version] has. *)
Definition Version_lt (self other : Version) : outcome bool :=
  if is_numeric self && is_numeric other then
    Ret (triple_ltb Z.eqb Z.ltb (int_triple self) (int_triple other))
  else
    Raise AttributeError.

(** [!=] is the default inversion of [__eq__]. *)
Definition Version_ne (self other : Version) : bool :=
  negb (Version_eq self other).

(** The three orderings that [functools.total_ordering] derives from
    [__lt__] and [__eq__]. *)
Definition Version_gt (self other : Version) : outcome bool :=
  (op_result <- Version_lt self other ;;
   Ret (negb op_result && Version_ne self other))%py.

Definition Version_le (self other : Version) : outcome bool :=
  (op_result <- Version_lt self other ;;
   Ret (op_result || Version_eq self other))%py.

Definition Version_ge (self other : Version) : outcome bool :=
  (op_result <- Version_lt self other ;;
   Ret (negb op_result))%py.

(** The functions of the module [operator] used as comparison operations. *)
Inductive compare_op : Type := op_ge | op_le | op_gt | op_lt | op_eq.

Definition compare_op_eqb (a b : compare_op) : bool :=
  match a, b with
  | op_ge, op_ge | op_le, op_le | op_gt, op_gt | op_lt, op_lt | op_eq, op_eq => true
  | _, _ => false
  end.

Definition apply_op (o : compare_op) (a b : Version) : outcome bool :=
  match o with
  | op_ge => Version_ge a b
  | op_le => Version_le a b
  | op_gt => Version_gt a b
  | op_lt => Version_lt a b
  | op_eq => Ret (Version_eq a b)
  end.

(** ** Dictionaries *)

(** A Python [dict] with [str] keys, in insertion order. Keys are unique in
    Python; [dict_get] reads the first binding. *)
Definition dict (V : Type) : Type := list (string * V).

(** [d.get(k)] *)
Fixpoint dict_get {V} (d : dict V) (k : string) : option V :=
  match d with
  | [] => None
  | (k', v) :: rest => if String.eqb k' k then Some v else dict_get rest k
  end.

(** [d[k]] *)
Definition dict_item {V} (d : dict V) (k : string) : outcome V :=
  match dict_get d k with
  | Some v => Ret v
  | None => Raise KeyError
  end.

(** [d.keys()] *)
Definition dict_keys {V} (d : dict V) : list string := map fst d.

(** [k in d.keys()] *)
Definition dict_has {V} (d : dict V) (k : string) : bool :=
  match dict_get d k with Some _ => true | None => false end.

(** ** The manifest model *)

(** One record of the installed-mods manifest: [version], [build],
    [display_name], [base] and one key per installed option. *)
Definition InstalledEntry : Type := dict string.

(** An entry of [prerequisites] or [incompatible] after [Mod.__init__] has
    turned a scalar [name] / [versions] into a list. [name_label] is the
    key that [check_requirement] and [check_incompatible] write into the
    entry. *)
Record Prereq : Type := MkPrereq {
  prereq_name : list string;
  prereq_versions : option (list string);
  prereq_optional_content : option (list string);
  prereq_name_label : option string
}.

Definition set_name_label (p : Prereq) (label : string) : Prereq :=
  MkPrereq (prereq_name p) (prereq_versions p) (prereq_optional_content p)
           (Some label).

(** [Mod.OptionalContent] *)
Record OptionalContent : Type := MkOptionalContent {
  option_name : string;
  option_display_name : string;
  option_description : string;
  option_install_settings : option (list (string * string));
  option_default_option : option string
}.

(** The attributes of a [Mod] that are fixed by [__init__]. *)
Record Mod : Type := MkMod {
  name : string;
  display_name : string;
  version : string;
  build : string;
  prerequisites : list Prereq;
  incompatible : list Prereq;
  patcher_version_requirement : list string;
  distibution_dir : string;
  no_base_content : bool;
  optional_content : option (list OptionalContent)
}.

(** [self.options_dict]: filled in declaration order, so a later option of
    the same name replaces an earlier one. *)
Definition options_dict (self : Mod) : dict OptionalContent :=
  match optional_content self with
  | None => []
  | Some l => map (fun o => (option_name o, o)) (rev l)
  end.

(** One element of [individual_require_status] / [individual_incomp_status]:
    the entry (carrying its [name_label]), its verdict and its messages. *)
Definition status_entry : Type := Prereq * bool * list string.

(** What the modelled methods mutate: the resolver-owned attributes of the
    mod, and the log of the calls made to [copy_from_to] (file list,
    destination). *)
Record World : Type := MkWorld {
  requirements_style : string;
  incompatibles_style : string;
  individual_require_status : list status_entry;
  individual_incomp_status : list status_entry;
  copied : list (list string * string)
}.

(** The attribute values right after [Mod.__init__]. *)
Definition World_init : World := MkWorld "mixed" "mixed" [] [] [].

(** ** The environment *)

(** Code imported by [mod.py] whose source is not part of it, and the
    iteration order of a Python [set], which the language leaves open. *)
Class Env : Type := {
  (** [localisation.tr(key, **kwargs)] *)
  tr : string -> list (string * string) -> string;
  (** [color.fconsole(text, color)] with the name of the [bcolors] member *)
  fconsole : string -> string -> string;
  (** [color.remove_colors]; its argument is [None] at one call site *)
  remove_colors : option string -> outcome string;
  COMPATCH_GITHUB : string;
  DEM_DISCORD : string;
  WIKI_COMPATCH : string;
  (** [file_ops.copy_from_to(source_dirs, destination, console)] *)
  copy_from_to : list string -> string -> bool -> outcome unit;
  os_path_join : list string -> string;
  os_path_isdir : string -> bool;
  (** [Path(p).parent] *)
  path_parent : string -> string;
  (** [list(s)] for the set [s] of the operators added in the given order:
      some enumeration, without repetition, of the operators added. *)
  list_of_op_set : list compare_op -> list compare_op;
  list_of_op_set_NoDup : forall l, NoDup (list_of_op_set l);
  list_of_op_set_In : forall l o, In o (list_of_op_set l) <-> In o l;
  (** iteration order of a set of [str] holding the given elements *)
  list_of_str_set : list string -> list string;
  list_of_str_set_NoDup : forall l, NoDup (list_of_str_set l);
  list_of_str_set_In : forall l x, In x (list_of_str_set l) <-> In x l
}.

(** ** The state-and-exception monad *)

Definition M (A : Type) : Type := World -> outcome A * World.

Definition mret {A} (a : A) : M A := fun w => (Ret a, w).

Definition mbind {A B} (c : M A) (k : A -> M B) : M B :=
  fun w =>
    match c w with
    | (Ret a, w') => k a w'
    | (Raise e, w') => (Raise e, w')
    end.

Definition lift {A} (c : outcome A) : M A := fun w => (c, w).

Definition modify (f : World -> World) : M unit := fun w => (Ret tt, f w).

Declare Scope world_scope.
Delimit Scope world_scope with world.
Notation "x <- c ;; k" := (mbind c (fun x => k))
  (at level 61, c at next level, right associativity) : world_scope.
Notation "' pat <- c ;; k" := (mbind c (fun x => match x with pat => k end))
  (at level 61, pat pattern, c at next level, right associativity) : world_scope.
Notation "c ;;; k" := (mbind c (fun _ => k))
  (at level 61, right associativity) : world_scope.

(** [for x in l: acc = body(acc, x)] with effects. *)
Fixpoint for_eachM {A S} (body : S -> A -> M S) (l : list A) (acc : S) : M S :=
  match l with
  | [] => mret acc
  | x :: rest => mbind (body acc x) (for_eachM body rest)
  end.

(** [try: body / except Exception: handler] *)
Definition try_except {A} (body : M A) (handler : exn -> M A) : M A :=
  fun w =>
    match body w with
    | (Ret a, w') => (Ret a, w')
    | (Raise e, w') => handler e w'
    end.

Definition set_requirements_style (s : string) : M unit :=
  modify (fun w => MkWorld s (incompatibles_style w) (individual_require_status w)
                           (individual_incomp_status w) (copied w)).

Definition set_incompatibles_style (s : string) : M unit :=
  modify (fun w => MkWorld (requirements_style w) s (individual_require_status w)
                           (individual_incomp_status w) (copied w)).

Definition set_individual_require_status (l : list status_entry) : M unit :=
  modify (fun w => MkWorld (requirements_style w) (incompatibles_style w) l
                           (individual_incomp_status w) (copied w)).

Definition set_individual_incomp_status (l : list status_entry) : M unit :=
  modify (fun w => MkWorld (requirements_style w) (incompatibles_style w)
                           (individual_require_status w) l (copied w)).

Definition log_copy (files : list string) (dest : string) : M unit :=
  modify (fun w => MkWorld (requirements_style w) (incompatibles_style w)
                           (individual_require_status w)
                           (individual_incomp_status w)
                           (append (copied w) (files, dest))).

(** ** The resolver: methods of [Mod] *)

Definition nl : string := String "010"%char EmptyString.

(** The operator selected by the prefix of a constraint of a prerequisite
    or incompatible entry; no prefix means [operator.eq]. *)
Definition compare_operation (version : string) : compare_op :=
  if String.eqb ">=" (Py.take 2 version) then op_ge
  else if String.eqb "<=" (Py.take 2 version) then op_le
  else if String.eqb ">" (Py.take 1 version) then op_gt
  else if String.eqb "<" (Py.take 1 version) then op_lt
  else op_eq.

(** The operator of a tool-version requirement; no prefix means
    [operator.ge]. *)
Definition compare_operation_tool (version : string) : compare_op :=
  if String.eqb ">=" (Py.take 2 version) then op_ge
  else if String.eqb "<=" (Py.take 2 version) then op_le
  else if String.eqb ">" (Py.take 1 version) then op_gt
  else if String.eqb "<" (Py.take 1 version) then op_lt
  else if String.eqb "=" (Py.take 1 version) then op_eq
  else op_ge.

(** [for sign in (">", "<", "="): version = version.replace(sign, '')] *)
Definition strip_signs (version : string) : string :=
  Py.remove "="%char (Py.remove "<"%char (Py.remove ">"%char version)).

Definition op_in (o : compare_op) (l : list compare_op) : bool :=
  existsb (compare_op_eqb o) l.

(** The style chosen from [compare_ops = list(compare_ops)]; the second
    test of the source reads [(operator.lt, operator.lt)]. *)
Definition constraints_style (compare_ops : list compare_op) : string :=
  let len_ops := length compare_ops in
  let ops0 := nth 0 compare_ops op_eq in
  let ops1 := nth 1 compare_ops op_eq in
  if (len_ops =? 1)%nat && op_in op_eq compare_ops then "strict"
  else if (len_ops =? 2)%nat && negb (op_in op_eq compare_ops) then
    if op_in ops0 [op_ge; op_gt] && op_in ops1 [op_le; op_lt] then "range"
    else if op_in ops0 [op_lt; op_lt] && op_in ops1 [op_ge; op_gt] then "range"
    else "mixed"
  else "mixed".

(** The last alternative name that is installed, [None] if there is none. *)
Definition last_installed (names : list string) (existing_content : dict InstalledEntry)
  : option string :=
  fold_left (fun found possible =>
               match dict_get existing_content possible with
               | Some _ => Some possible
               | None => found
               end) names None.

(** [existing_content[mod_name]] where [mod_name] may be [None]. *)
Definition installed_item (existing_content : dict InstalledEntry)
  (mod_name : option string) : outcome InstalledEntry :=
  match mod_name with
  | Some n => dict_item existing_content n
  | None => Raise KeyError
  end.

(** The loop that builds [name_label]: display names of the installed
    alternatives, technical names of the others. *)
Definition name_label_step (existing_content : dict InstalledEntry)
  (acc : list string * bool) (service_name : string) : outcome (list string * bool) :=
  match dict_get existing_content service_name with
  | Some existing_mod =>
      (dn <- dict_item existing_mod "display_name" ;;
       Ret (append (fst acc) dn, snd acc))%py
  | None => Ret (append (fst acc) service_name, true)
  end.

(** One turn of [for version in prereq_versions] in [check_requirement]:
    [version_validated] is assigned, not accumulated. *)
Definition requirement_version_step (existing_content : dict InstalledEntry)
  (required_mod_name : option string)
  (acc : bool * list compare_op) (version : string)
  : outcome (bool * list compare_op) :=
  (let compare_op := compare_operation version in
   let version := strip_signs version in
   existing_mod <- installed_item existing_content required_mod_name ;;
   installed_version <- dict_item existing_mod "version" ;;
   let parsed_existing_ver := Version_init installed_version in
   let parsed_required_ver := Version_init version in
   version_validated <- apply_op compare_op parsed_existing_ver parsed_required_ver ;;
   let compare_ops := append (snd acc) compare_op in
   if compare_op_eqb compare_op op_eq
      && negb (String.eqb (identifier parsed_required_ver) "")
      && negb (String.eqb (identifier parsed_existing_ver)
                          (identifier parsed_required_ver))
   then Ret (false, compare_ops)
   else Ret (version_validated, compare_ops))%py.

(** The whole loop, from [version_validated = True] and the empty set. *)
Definition requirement_versions (existing_content : dict InstalledEntry)
  (required_mod_name : option string) (prereq_versions : list string)
  : outcome (bool * list compare_op) :=
  for_each (requirement_version_step existing_content required_mod_name)
           prereq_versions (true, []).

(** The test "trying to install compatch-only mod on comrem" of
    [check_requirement]. *)
Definition compatch_on_comrem (self : Mod) (prereq : Prereq)
  (existing_content : dict InstalledEntry) : bool :=
  match last_installed (prereq_name prereq) existing_content with
  | Some required_mod_name => String.eqb required_mod_name "community_patch"
  | None => false
  end
  && dict_has existing_content "community_remaster"
  && negb (String.eqb (name self) "community_remaster")
  && negb (Py.str_in "community_remaster" (prereq_name prereq)).

(** [self_and_prereqs]: the mod's own name and every alternative name of
    its prerequisites. *)
Definition self_and_prereqs (self : Mod) : list string :=
  (name self :: flat_map prereq_name (prerequisites self))%list.

(** [set(existing_content.keys()) - set(self_and_prereqs)] *)
Definition existing_other_mods (self : Mod)
  (existing_content : dict InstalledEntry) : list string :=
  filter (fun k => negb (Py.str_in k (self_and_prereqs self)))
         (dict_keys existing_content).

Section Resolver.

Context {E : Env}.

Definition or_word : string := " " ++ tr "or" [] ++ " ".
Definition and_word : string := " " ++ tr "and" [] ++ " ".

(** One turn of [for option in optional_content] in [check_requirement]. *)
Definition requirement_option_step (existing_content : dict InstalledEntry)
  (required_mod_name : option string) (name_label : string)
  (acc : bool * list string) (option : string) : outcome (bool * list string) :=
  (existing_mod <- installed_item existing_content required_mod_name ;;
   let '(optional_content_validated, error_msg) := acc in
   let installed := dict_get existing_mod option in
   if match installed with
      | None => true
      | Some v => String.eqb v "skip"
      end
   then
     let requirement_err := tr "content_requirement_not_met" [] ++ ":" in
     let requirement_name :=
       "  * '" ++ option ++ "' " ++ tr "for_mod" [] ++ " " ++ name_label in
     let error_msg :=
       if negb (Py.str_in requirement_err error_msg)
       then append error_msg requirement_err else error_msg in
     Ret (false, append error_msg requirement_name)
   else Ret (optional_content_validated, error_msg))%py.

(** [Mod.check_requirement]: the verdict, the messages and the entry
    with its [name_label] written. *)
Definition check_requirement (self : Mod) (prereq : Prereq)
  (existing_content : dict InstalledEntry)
  (existing_content_descriptions : dict string)
  (is_compatch_env : bool) : M (bool * list string * Prereq) :=
  (let error_msg : list string := [] in
   let required_mod_name := last_installed (prereq_name prereq) existing_content in
   let name_validated :=
     match required_mod_name with Some _ => true | None => false end in
   let compatch_only := compatch_on_comrem self prereq existing_content in
   let name_validated := if compatch_only then false else name_validated in
   let error_msg :=
     if compatch_only
     then append error_msg (tr "compatch_mod_incompatible_with_comrem" [])
     else error_msg in
   ' (name_label, only_technical_name_available) <-
       lift (for_each (name_label_step existing_content)
                      (prereq_name prereq) ([], false)) ;;
   let name_label := Py.join or_word name_label in
   let prereq_versions := prereq_versions prereq in
   let version_label :=
     match prereq_versions with
     | Some ((_ :: _) as vs) =>
         ", " ++ tr "of_version" [] ++ ": " ++ Py.join and_word vs
     | _ => ""
     end in
   version_validated <-
     match prereq_versions with
     | Some ((_ :: _) as vs) =>
         if name_validated then
           ' (version_validated, compare_ops) <-
               lift (requirement_versions existing_content required_mod_name vs) ;;
           set_requirements_style
             (constraints_style (list_of_op_set compare_ops)) ;;;
           mret version_validated
         else mret true
     | _ => mret true
     end ;;
   let optional_content := prereq_optional_content prereq in
   let optional_content_label :=
     match optional_content with
     | Some ((_ :: _) as oc) =>
         ", " ++ Py.lower (tr "including_options" []) ++ ": " ++ Py.join ", " oc
     | _ => ""
     end in
   ' (optional_content_validated, error_msg) <-
     match optional_content with
     | Some ((_ :: _) as oc) =>
         if name_validated && version_validated then
           lift (for_each (requirement_option_step existing_content
                             required_mod_name name_label)
                          oc (true, error_msg))
         else mret (true, error_msg)
     | _ => mret (true, error_msg)
     end ;;
   let validated :=
     name_validated && version_validated && optional_content_validated in
   error_msg <-
     (if negb validated then
        let warning :=
          if negb name_validated
          then nl ++ tr "required_mod_not_found" [] ++ ":"
          else nl ++ tr "required_base" [] ++ ":" in
        let error_msg :=
          if negb (Py.str_in warning error_msg)
          then append error_msg warning else error_msg in
        let name_label_tr :=
          if only_technical_name_available
          then tr "technical_name" [] else tr "mod_name" [] in
        let error_msg :=
          append error_msg (Py.capitalize name_label_tr ++ ": " ++ name_label
                              ++ version_label ++ optional_content_label) in
        let installed_description :=
          match required_mod_name with
          | Some n => dict_get existing_content_descriptions n
          | None => None
          end in
        match installed_description with
        | Some d =>
            let d := Py.strip_chars Py.is_newline d in
            cleaned <- lift (remove_colors (Some d)) ;;
            let error_msg_entry :=
              nl ++ Py.capitalize (tr "version_available" []) ++ ":" ++ nl
                 ++ cleaned in
            mret (if negb (Py.str_in error_msg_entry error_msg)
                  then append error_msg error_msg_entry else error_msg)
        | None =>
            if is_compatch_env
               && Py.str_in "community_remaster" (prereq_name prereq)
            then
              let d := dict_get existing_content_descriptions "community_patch" in
              cleaned <- lift (remove_colors d) ;;
              let error_msg_entry :=
                nl ++ Py.capitalize (tr "version_available" []) ++ ":" ++ nl
                   ++ cleaned in
              mret (if negb (Py.str_in error_msg_entry error_msg)
                    then append error_msg error_msg_entry else error_msg)
            else mret error_msg
        end
      else mret error_msg) ;;
   mret (validated, error_msg, set_name_label prereq name_label))%world.

(** One turn of the loop of [compatible_with_mod_manager]; the state is
    [(compatible, mod_manager_too_new)]. *)
Definition tool_requirement_step (patcher_version_parsed : Version)
  (acc : bool * bool) (version : string) : outcome (bool * bool) :=
  (let compare_op := compare_operation_tool version in
   let version := strip_signs version in
   let parsed_required_ver := Version_init version in
   mod_manager_too_new <-
     (if compare_op_eqb compare_op op_eq then
        older <- Version_lt parsed_required_ver patcher_version_parsed ;;
        Ret (if older then true else snd acc)
      else Ret (snd acc)) ;;
   ok <- apply_op compare_op patcher_version_parsed parsed_required_ver ;;
   Ret (fst acc && ok, mod_manager_too_new))%py.

(** [Mod.compatible_with_mod_manager]. Both identifiers are reset to
    [None] in the source; no comparison reads them. *)
Definition compatible_with_mod_manager (self : Mod) (patcher_version : string)
  : outcome (bool * string) :=
  (let patcher_version_parsed := Version_init patcher_version in
   ' (compatible, mod_manager_too_new) <-
      for_each (tool_requirement_step patcher_version_parsed)
               (patcher_version_requirement self) (true, false) ;;
   let error_msg :=
     if negb compatible then
       let msg :=
         tr "usupported_patcher_version"
            [("content_name", fconsole (display_name self) "WARNING");
             ("required_version",
              Py.join and_word (patcher_version_requirement self));
             ("current_version", patcher_version);
             ("github_url", fconsole COMPATCH_GITHUB "HEADER")] in
       if mod_manager_too_new && String.eqb (name self) "community_remaster"
       then
         msg ++ nl ++ nl ++ tr "check_for_a_new_version" [] ++ nl ++ nl
             ++ tr "demteam_links"
                   [("discord_url", fconsole DEM_DISCORD "HEADER");
                    ("deuswiki_url", fconsole WIKI_COMPATCH "HEADER");
                    ("github_url", fconsole COMPATCH_GITHUB "HEADER")]
             ++ nl
       else msg
     else "" in
   Ret (compatible, Py.strip error_msg))%py.

Definition append_require_status (e : status_entry) : M unit :=
  fun w => set_individual_require_status
             (append (individual_require_status w) e) w.

Definition append_incomp_status (e : status_entry) : M unit :=
  fun w => set_individual_incomp_status
             (append (individual_incomp_status w) e) w.

(** The test that makes [check_requirements] [continue]; [prereq["name"][0]]
    is evaluated only for the mod [community_remaster]. *)
Definition skipped_for_remaster (self : Mod) (prereq : Prereq) : outcome bool :=
  if String.eqb (name self) "community_remaster" then
    match prereq_name prereq with
    | [] => Raise IndexError
    | first :: _ => Ret (String.eqb first "community_patch")
    end
  else Ret false.

(** One turn of [for prereq in self.prerequisites]; the state is
    [(requirements_met, error_msg)]. *)
Definition check_requirements_step (self : Mod)
  (existing_content : dict InstalledEntry)
  (existing_content_descriptions : dict string) (is_compatch_env : bool)
  (acc : bool * list string) (prereq : Prereq) : M (bool * list string) :=
  (skip <- lift (skipped_for_remaster self prereq) ;;
   if skip then mret acc
   else
     ' (validated, mod_error, prereq) <-
        check_requirement self prereq existing_content
                          existing_content_descriptions is_compatch_env ;;
     append_require_status (prereq, validated, mod_error) ;;;
     let error_msg :=
       match mod_error with
       | [] => snd acc
       | _ => (snd acc ++ mod_error)%list
       end in
     mret (fst acc && validated, error_msg))%world.

(** [Mod.check_requirements]. The result of [compatible_with_mod_manager]
    is a pair, which is truthy, so the branch guarded by its negation is
    never taken; the call itself is made. *)
Definition check_requirements (self : Mod)
  (existing_content : dict InstalledEntry)
  (existing_content_descriptions : dict string)
  (patcher_version : string) : M (bool * list string) :=
  (let is_compatch_env :=
     negb (dict_has existing_content "community_remaster")
     && dict_has existing_content "community_patch" in
   (match patcher_version with
    | EmptyString => mret tt
    | _ => _ <- lift (compatible_with_mod_manager self patcher_version) ;;
           mret tt
    end) ;;;
   set_individual_require_status [] ;;;
   ' (requirements_met, error_msg) <-
      for_eachM (check_requirements_step self existing_content
                   existing_content_descriptions is_compatch_env)
                (prerequisites self) (true, []) ;;
   let error_msg :=
     match error_msg with
     | [] => error_msg
     | _ => append error_msg (nl ++ tr "check_for_a_new_version" [])
     end in
   mret (requirements_met, error_msg))%world.

(** [Mod.check_reinstallability]:
    [(is_reinstall, can_be_reinstalled, warning, previous_install)]. *)
Definition check_reinstallability (self : Mod)
  (existing_content : dict InstalledEntry)
  (existing_content_descriptions : dict string)
  : outcome (bool * bool * string * option InstalledEntry) :=
  (let previous_install := dict_get existing_content (name self) in
   let previous_install :=
     if String.eqb (name self) "community_remaster" then
       match previous_install with
       | None => dict_get existing_content "community_patch"
       | Some _ => previous_install
       end
     else previous_install in
   match previous_install with
   | None => Ret (false, true, "", None)
   | Some previous =>
       match existing_other_mods self existing_content with
       | _ :: _ =>
           existing_mods_display_names <-
             for_each (fun acc mod_key =>
                         entry <- dict_item existing_content mod_key ;;
                         Ret (append acc
                                match dict_get entry "display_name" with
                                | Some mod_name => mod_name
                                | None => mod_key
                                end))
                      (list_of_str_set (existing_other_mods self existing_content))
                      [] ;;
           let warning :=
             tr "cant_reinstall_over_other_mods" [] ++ ": "
                ++ Py.join ", " existing_mods_display_names in
           Ret (true, false, warning, previous_install)
       | [] =>
           previous_version <- dict_item previous "version" ;;
           let existing_version := Version_init previous_version in
           let this_version := Version_init (version self) in
           if Version_eq existing_version this_version then
             previous_build <- dict_item previous "build" ;;
             if String.eqb (build self) previous_build then
               if Py.truthy (optional_content self)
               then Ret (true, true, tr "complex_safe_reinstall" [], previous_install)
               else Ret (true, true, tr "safe_reinstall" [], previous_install)
             else if Py.str_gt (build self) previous_build then
               if Py.truthy (optional_content self)
               then Ret (true, true, tr "complex_unsafe_reinstall" [], previous_install)
               else Ret (true, true, tr "unsafe_reinstall" [], previous_install)
             else
               Ret (true, false, tr "cant_reinstall_over_newer_build" [],
                    previous_install)
           else
             Ret (true, false, tr "cant_reinstall_over_other_version" [],
                  previous_install)
       end
   end)%py.

(** One turn of [for version in incomp_versions] in [check_incompatible];
    an identifier mismatch on [=] sets [version_incomp] to [True]. *)
Definition incompatible_version_step (installed_version : string)
  (acc : bool * list compare_op) (version : string)
  : outcome (bool * list compare_op) :=
  (let compare_op := compare_operation version in
   let version := strip_signs version in
   let parsed_existing_ver := Version_init installed_version in
   let parsed_incompat_ver := Version_init version in
   version_incomp <- apply_op compare_op parsed_existing_ver parsed_incompat_ver ;;
   let compare_ops := append (snd acc) compare_op in
   if compare_op_eqb compare_op op_eq
      && negb (String.eqb (identifier parsed_incompat_ver) "")
      && negb (String.eqb (identifier parsed_existing_ver)
                          (identifier parsed_incompat_ver))
   then Ret (true, compare_ops)
   else Ret (version_incomp, compare_ops))%py.

Definition incompatible_versions (installed_version : string)
  (incomp_versions : list string) : outcome (bool * list compare_op) :=
  for_each (incompatible_version_step installed_version)
           incomp_versions (false, []).

(** One turn of [for option in optional_content] in [check_incompatible];
    the state is [optional_content_incomp]. *)
Definition incompatible_option_step (existing_content : dict InstalledEntry)
  (mod_name : string) (acc : bool) (option : string) : outcome bool :=
  (existing_mod <- dict_item existing_content mod_name ;;
   match dict_get existing_mod option with
   | None => Ret acc
   | Some v => Ret (if String.eqb v "skip" then acc else true)
   end)%py.

(** [Mod.check_incompatible]. The source returns [""] instead of a list
    when no alternative is installed; both are the empty message list
    here. *)
Definition check_incompatible (self : Mod) (incomp : Prereq)
  (existing_content : dict InstalledEntry)
  (existing_content_descriptions : dict string)
  : M (bool * list string * Prereq) :=
  (let error_msg : list string := [] in
   let incomp_mod_name := last_installed (prereq_name incomp) existing_content in
   ' (name_label, only_technical_name_available) <-
       lift (for_each (name_label_step existing_content)
                      (prereq_name incomp) ([], false)) ;;
   let name_label := Py.join or_word name_label in
   match incomp_mod_name with
   | Some mod_name =>
       let name_incompat := true in
       let incomp_versions := prereq_versions incomp in
       ' (version_incomp, version_label) <-
         match incomp_versions with
         | Some ((_ :: _) as vs) =>
             existing_mod <- lift (dict_item existing_content mod_name) ;;
             installed_version <- lift (dict_item existing_mod "version") ;;
             let version_label :=
               ", " ++ tr "of_version" [] ++ ": " ++ Py.join or_word vs in
             ' (version_incomp, compare_ops) <-
                 lift (incompatible_versions installed_version vs) ;;
             set_incompatibles_style
               (constraints_style (list_of_op_set compare_ops)) ;;;
             mret (version_incomp, version_label)
         | _ => mret (true, "")
         end ;;
       let optional_content := prereq_optional_content incomp in
       ' (optional_content_incomp, optional_content_label) <-
         match optional_content with
         | Some ((_ :: _) as oc) =>
             let optional_content_label :=
               ", " ++ Py.lower (tr "including_options" []) ++ ": "
                    ++ Py.join or_word oc in
             found <-
               lift (for_each (incompatible_option_step existing_content mod_name)
                              oc false) ;;
             mret (found, optional_content_label)
         | _ => mret (true, "")
         end ;;
       let incompatible_with_game_copy :=
         name_incompat && version_incomp && optional_content_incomp in
       let name_label_tr :=
         if only_technical_name_available
         then tr "technical_name" [] else tr "mod_name" [] in
       error_msg <-
         (if incompatible_with_game_copy then
            let error_msg :=
              append error_msg
                (nl ++ tr "found_incompatible" [] ++ ":" ++ nl
                    ++ Py.capitalize name_label_tr ++ ": " ++ name_label
                    ++ version_label ++ optional_content_label) in
            match dict_get existing_content_descriptions mod_name with
            | Some d =>
                let d := Py.strip_chars Py.is_newline d in
                cleaned <- lift (remove_colors (Some d)) ;;
                mret (append error_msg
                        (nl ++ Py.capitalize (tr "version_available" []) ++ ":"
                            ++ nl ++ cleaned))
            | None => lift (Raise NotImplementedError)
            end
          else mret error_msg) ;;
       mret (incompatible_with_game_copy, error_msg,
             set_name_label incomp name_label)
   | None => mret (false, [], set_name_label incomp name_label)
   end)%world.

(** [Mod.check_incompatibles] *)
Definition check_incompatibles (self : Mod)
  (existing_content : dict InstalledEntry)
  (existing_content_descriptions : dict string) : M (bool * list string) :=
  (set_individual_incomp_status [] ;;;
   ' (compatible, error_msg) <-
      for_eachM
        (fun (acc : bool * list string) incomp =>
           ' (incompatible_with_game_copy, mod_error, incomp) <-
              check_incompatible self incomp existing_content
                                 existing_content_descriptions ;;
           append_incomp_status
             (incomp, negb incompatible_with_game_copy, mod_error) ;;;
           let error_msg :=
             match mod_error with
             | [] => snd acc
             | _ => (snd acc ++ mod_error)%list
             end in
           mret (fst acc && negb incompatible_with_game_copy, error_msg))
        (incompatible self) (true, []) ;;
   let error_msg :=
     match error_msg with
     | [] => error_msg
     | _ => append error_msg (nl ++ tr "check_for_a_new_version" [])
     end in
   mret (compatible, error_msg))%world.

(** ** The installer *)

(** [install_settings.get(k)]: [None] for a missing key and for a key
    bound to [None]. *)
Definition settings_get (install_settings : dict (option string)) (k : string)
  : option string :=
  match dict_get install_settings k with
  | Some (Some v) => Some v
  | _ => None
  end.

(** The check made under the key [base]: every declared option has a
    configuration. *)
Definition options_configured (self : Mod)
  (install_settings : dict (option string)) : outcome unit :=
  match optional_content self with
  | None => Ret tt
  | Some options =>
      for_each (fun _ option =>
                  match settings_get install_settings (option_name option) with
                  | None => Raise KeyError
                  | Some _ => Ret tt
                  end) options tt
  end.

(** One turn of [for install_setting in install_settings]; the state is
    [mod_files]. Console output is left out. *)
Definition install_setting_step (self : Mod)
  (install_settings : dict (option string))
  (mod_files : list string) (install_setting : string) : outcome (list string) :=
  (if String.eqb install_setting "base" then
     match settings_get install_settings "base" with
     | None => Raise KeyError
     | Some install_base =>
         _ <- options_configured self install_settings ;;
         let base_path := os_path_join [distibution_dir self; "data"] in
         Ret (append mod_files base_path)
     end
   else
     wip_setting <- dict_item (options_dict self) install_setting ;;
     let base_work_path :=
       os_path_join [distibution_dir self; option_name wip_setting; "data"] in
     installation_prompt_result <- dict_item install_settings install_setting ;;
     match installation_prompt_result with
     | Some choice =>
         if String.eqb choice "yes" then Ret (append mod_files base_work_path)
         else if String.eqb choice "skip" then Ret mod_files
         else
           let custom_install_method := choice in
           let custom_install_work_path :=
             os_path_join [distibution_dir self; option_name wip_setting;
                           custom_install_method] in
           Ret (append (append mod_files base_work_path)
                       custom_install_work_path)
     | None => Raise TypeError
     end)%py.

(** The list [mod_files] handed to [copy_from_to]. *)
Definition install_mod_files (self : Mod)
  (install_settings : dict (option string)) : outcome (list string) :=
  for_each (install_setting_step self install_settings)
           (dict_keys install_settings) [].

(** The body of the [try] block of [Mod.install]. *)
Definition install_body (self : Mod) (game_data_path : string)
  (install_settings : dict (option string))
  (existing_content : dict InstalledEntry)
  (existing_content_descriptions : dict string) (console : bool)
  : M (bool * list string) :=
  (' (requirements_met, error_msgs) <-
      check_requirements self existing_content existing_content_descriptions "" ;;
   if requirements_met then
     mod_files <- lift (install_mod_files self install_settings) ;;
     log_copy mod_files game_data_path ;;;
     _ <- lift (copy_from_to mod_files game_data_path console) ;;
     mret (true, [])
   else mret (false, error_msgs))%world.

(** [Mod.install]: [except Exception] answers [(False, [])]. *)
Definition install (self : Mod) (game_data_path : string)
  (install_settings : dict (option string))
  (existing_content : dict InstalledEntry)
  (existing_content_descriptions : dict string) (console : bool)
  : M (bool * list string) :=
  try_except
    (install_body self game_data_path install_settings existing_content
                  existing_content_descriptions console)
    (fun ex => mret (false, [])).

End Resolver.

(** ** Manifest validation *)

(** A Python [float]: the only operation used is comparison. *)
Inductive pyfloat : Type :=
| FNan
| FInf (negative : bool)
| FFinite (q : Q).

(** A value produced by the YAML reader. *)
Inductive yaml : Type :=
| YNone
| YBool (b : bool)
| YInt (z : Z)
| YFloat (f : pyfloat)
| YStr (s : string)
| YList (l : list yaml)
| YDict (d : list (string * yaml)).

(** The classes named in the schemas, and the parameterised [list[...]]
    whose argument is the union of the listed classes. *)
Inductive basetype : Type := t_str | t_int | t_float | t_bool | t_list | t_dict.

Inductive pytype : Type :=
| Plain (t : basetype)
| ListOf (args : list basetype).

(** [isinstance(value, t)]; [bool] is a subclass of [int]. *)
Definition isinstance (value : yaml) (t : basetype) : bool :=
  match t, value with
  | t_str, YStr _ => true
  | t_int, YInt _ => true
  | t_int, YBool _ => true
  | t_float, YFloat _ => true
  | t_bool, YBool _ => true
  | t_list, YList _ => true
  | t_dict, YDict _ => true
  | _, _ => false
  end.

(** [hasattr(type_entry, "__origin__")] *)
Definition has_origin (t : pytype) : bool :=
  match t with
  | Plain _ => false
  | ListOf _ => true
  end.

(** [d.get(field)] on a manifest dictionary. *)
Definition yget (d : list (string * yaml)) (field : string) : yaml :=
  match dict_get d field with
  | Some v => v
  | None => YNone
  end.

Definition is_none (v : yaml) : bool :=
  match v with YNone => true | _ => false end.

(** [bool(v)] *)
Definition ytruthy (v : yaml) : bool :=
  match v with
  | YNone => false
  | YBool b => b
  | YInt z => negb (z =? 0)%Z
  | YFloat (FFinite q) => negb (Qeq_bool q 0)
  | YFloat _ => true
  | YStr s => negb (String.eqb s "")
  | YList l => match l with [] => false | _ => true end
  | YDict d => match d with [] => false | _ => true end
  end.

(** The type test of [validate_dict] for one value that is not [None]. *)
Definition valid_type (types : list pytype) (value : yaml) : bool :=
  let generics_present := existsb has_origin types in
  if negb generics_present then
    existsb (fun type_entry =>
               match type_entry with
               | Plain t => isinstance value t
               | ListOf _ => false
               end) types
  else
    forallb (fun type_entry =>
               match type_entry, value with
               | ListOf args, YList l =>
                   forallb (fun value_internal =>
                              existsb (isinstance value_internal) args) l
               | _, _ => true
               end) types.

Definition scheme : Type := list (string * (list pytype * bool)).

(** [Mod.validate_dict] *)
Definition validate_dict (validating_dict : yaml) (sch : scheme) : bool :=
  match validating_dict with
  | YDict d =>
      forallb (fun entry =>
                 let '(field, (types, required)) := entry in
                 let value := yget d field in
                 if required && is_none value then false
                 else if required || (negb required && negb (is_none value))
                      then valid_type types value
                      else true) sch
  | _ => false
  end.

(** [for x in v]: the elements of a list, the characters of a string, the
    keys of a dictionary. *)
Definition py_iter (v : yaml) : outcome (list yaml) :=
  match v with
  | YList l => Ret l
  | YStr s => Ret (map (fun c => YStr (String c EmptyString)) (list_ascii_of_string s))
  | YDict d => Ret (map (fun kv => YStr (fst kv)) d)
  | _ => Raise TypeError
  end.

(** [len(v)] *)
Definition py_len (v : yaml) : outcome nat :=
  match v with
  | YList l => Ret (length l)
  | YStr s => Ret (String.length s)
  | YDict d => Ret (length d)
  | _ => Raise TypeError
  end.

(** [Mod.validate_list] *)
Definition validate_list (validating_list : yaml) (sch : scheme) : outcome bool :=
  (elements <- py_iter validating_list ;;
   let to_validate :=
     filter (fun element => isinstance element t_dict) elements in
   Ret (forallb (fun element => validate_dict element sch) to_validate))%py.

(** A field of a constrained scheme: the numeric fields of the only scheme
    in use accept one class each and carry their [[min, max]]. *)
Inductive constrained_types : Type :=
| only_float (min_req max_req : Q)
| only_int (min_req max_req : Z)
| unconstrained (types : list basetype).

Definition constrained_scheme : Type := list (string * (constrained_types * bool)).

Definition float_in_range (min_req max_req : Q) (f : pyfloat) : bool :=
  match f with
  | FFinite q => Qle_bool min_req q && Qle_bool q max_req
  | _ => false
  end.

(** [Mod.validate_dict_constrained]; [.get] on a value that is not a
    dictionary raises. *)
Definition validate_dict_constrained (validating_dict : yaml)
  (sch : constrained_scheme) : outcome bool :=
  match validating_dict with
  | YDict d =>
      Ret (forallb
             (fun entry =>
                let '(field, (types, required)) := entry in
                let value := yget d field in
                if required && is_none value then false
                else if required || (negb required && negb (is_none value)) then
                  match types, value with
                  | only_float lo hi, YFloat f => float_in_range lo hi f
                  | only_float _ _, _ => false
                  | only_int lo hi, YInt z => (lo <=? z)%Z && (z <=? hi)%Z
                  | only_int lo hi, YBool b =>
                      let z := if b then 1%Z else 0%Z in
                      (lo <=? z)%Z && (z <=? hi)%Z
                  | only_int _ _, _ => false
                  | unconstrained ts, _ => existsb (isinstance value) ts
                  end
                else true) sch)
  | _ => Raise AttributeError
  end.

Definition schema_fieds_top : scheme :=
  [ ("name", ([Plain t_str], true));
    ("display_name", ([Plain t_str], true));
    ("version", ([Plain t_str; Plain t_int; Plain t_float], true));
    ("build", ([Plain t_str], true));
    ("description", ([Plain t_str], true));
    ("authors", ([Plain t_str], true));
    ("prerequisites", ([Plain t_list], true));
    ("incompatible", ([Plain t_list], false));
    ("patcher_version_requirement",
     ([Plain t_str; Plain t_float; Plain t_int; ListOf [t_str; t_float; t_int]], true));
    ("release_date", ([Plain t_str], false));
    ("language", ([Plain t_str], true));
    ("translations", ([ListOf [t_str]], false));
    ("link", ([Plain t_str], false));
    ("tags", ([ListOf [t_str]], false));
    ("logo", ([Plain t_str], false));
    ("install_banner", ([Plain t_str], false));
    ("screenshots", ([Plain t_list], false));
    ("change_log", ([Plain t_str], false));
    ("other_info", ([Plain t_str], false));
    ("patcher_options", ([Plain t_dict], false));
    ("optional_content", ([Plain t_list], false));
    ("no_base_content", ([Plain t_bool; Plain t_str], false)) ].

Definition schema_prereqs : scheme :=
  [ ("name", ([Plain t_str; ListOf [t_str]], true));
    ("versions", ([ListOf [t_str; t_int; t_float]], false));
    ("optional_content", ([ListOf [t_str]], false)) ].

Definition schema_patcher_options : constrained_scheme :=
  [ ("gravity", (only_float (-100) (-1), false));
    ("skins_in_shop", (only_int 8 32, false));
    ("blast_damage_friendly_fire", (unconstrained [t_bool; t_str], false));
    ("game_font", (unconstrained [t_str], false)) ].

Definition schema_optional_content : scheme :=
  [ ("name", ([Plain t_str], true));
    ("display_name", ([Plain t_str], true));
    ("description", ([Plain t_str], true));
    ("default_option", ([Plain t_str], false));
    ("install_settings", ([Plain t_list], false)) ].

Definition schema_install_settins : scheme :=
  [ ("name", ([Plain t_str], true));
    ("description", ([Plain t_str], true)) ].

(** [v.get(field)] on an arbitrary value: only dictionaries have [get]. *)
Definition yaml_get (v : yaml) (field : string) : outcome yaml :=
  match v with
  | YDict d => Ret (yget d field)
  | _ => Raise AttributeError
  end.

(** A component handed to [os.path.join] has to be a [str]. *)
Definition path_part (v : yaml) : outcome string :=
  match v with
  | YStr s => Ret s
  | _ => Raise TypeError
  end.

Definition is_compatch (v : yaml) : bool :=
  match v with
  | YStr s => String.eqb s "community_patch"
  | _ => false
  end.

(** [[name] if isinstance(name, str) else name] *)
Definition entry_checked (entry_name : yaml) : yaml :=
  match entry_name with
  | YStr s => YList [YStr s]
  | other => other
  end.

(** ["community_patch" in checked] *)
Definition compatch_in (checked : yaml) : outcome bool :=
  match checked with
  | YList l => Ret (existsb is_compatch l)
  | YDict d => Ret (existsb (fun kv => String.eqb (fst kv) "community_patch") d)
  | YStr s =>
      Ret (match String.index 0 "community_patch" s with
           | Some _ => true
           | None => false
           end)
  | _ => Raise TypeError
  end.

Definition unhashable (v : yaml) : bool :=
  match v with
  | YList _ | YDict _ => true
  | _ => false
  end.

(** [bool(set(checked) & set(["community_patch"]))] *)
Definition compatch_in_set (checked : yaml) : outcome bool :=
  match checked with
  | YList l =>
      if existsb unhashable l then Raise TypeError
      else Ret (existsb is_compatch l)
  | YDict d => Ret (existsb (fun kv => String.eqb (fst kv) "community_patch") d)
  | YStr s => Ret false
  | _ => Raise TypeError
  end.

(** One turn of [for prereq_entry in prerequisites]; the state is
    [(validated, has_forbidden_prerequisites)]. *)
Definition prereq_entry_step (acc : bool * bool) (prereq_entry : yaml)
  : outcome (bool * bool) :=
  (let '(validated, has_forbidden_prerequisites) := acc in
   let validated := validated && validate_dict prereq_entry schema_prereqs in
   if validated then
     entry_name <- yaml_get prereq_entry "name" ;;
     let prereq_entry_checked := entry_checked entry_name in
     entry_optional_content <- yaml_get prereq_entry "optional_content" ;;
     listed <- compatch_in prereq_entry_checked ;;
     Ret (validated,
          has_forbidden_prerequisites
          || (listed && ytruthy entry_optional_content
              && negb (is_none entry_optional_content)))
   else Ret (validated, has_forbidden_prerequisites))%py.

(** One turn of [for incompatible_entry in incompatibles]; the state is
    [(validated, has_forbidden_icompabilities)]. *)
Definition incompatible_entry_step (acc : bool * bool) (incompatible_entry : yaml)
  : outcome (bool * bool) :=
  (let '(validated, has_forbidden_icompabilities) := acc in
   let validated := validated && validate_dict incompatible_entry schema_prereqs in
   if validated then
     entry_name <- yaml_get incompatible_entry "name" ;;
     let incompatible_entry_checked := entry_checked entry_name in
     listed <- compatch_in_set incompatible_entry_checked ;;
     Ret (validated, has_forbidden_icompabilities || listed)
   else Ret (validated, has_forbidden_icompabilities))%py.

Definition reserved_option_name (v : yaml) : bool :=
  match v with
  | YStr s => Py.str_in s ["base"; "display_name"; "build"; "version"]
  | _ => false
  end.

(** One turn of the loop over [optional_content] that checks the reserved
    names, the install settings and the options' own patcher options. *)
Definition optional_content_step (validated : bool) (option : yaml) : outcome bool :=
  (option_name <- yaml_get option "name" ;;
   let validated := if reserved_option_name option_name then false else validated in
   install_settings <- yaml_get option "install_settings" ;;
   validated <-
     (if is_none install_settings then Ret validated
      else
        n <- py_len install_settings ;;
        let validated := validated && (1 <? n)%nat in
        ok <- validate_list install_settings schema_install_settins ;;
        Ret (validated && ok)) ;;
   patcher_options_additional <- yaml_get option "patcher_options" ;;
   if is_none patcher_options_additional then Ret validated
   else
     ok <- validate_dict_constrained patcher_options_additional
                                     schema_patcher_options ;;
     Ret (validated && ok))%py.

(** The parts of [validate_install_config] that run once the top-level
    scheme has been validated, each mapping [validated] to its new value. *)

(** [if patcher_options is not None: ...] *)
Definition validate_patcher_options_part (d : list (string * yaml))
  (validated : bool) : outcome bool :=
  (let patcher_options := yget d "patcher_options" in
   if is_none patcher_options then Ret validated
   else
     ok <- validate_dict_constrained patcher_options schema_patcher_options ;;
     Ret (validated && ok))%py.

(** [if prerequisites is not None: ...] *)
Definition validate_prerequisites_part (d : list (string * yaml))
  (validated : bool) : outcome bool :=
  (let prerequisites := yget d "prerequisites" in
   if is_none prerequisites then Ret validated
   else
     entries <- py_iter prerequisites ;;
     ' (validated, has_forbidden_prerequisites) <-
        for_each prereq_entry_step entries (validated, false) ;;
     Ret (validated && negb has_forbidden_prerequisites))%py.

(** [if incompatibles is not None: ...] *)
Definition validate_incompatibles_part (d : list (string * yaml))
  (validated : bool) : outcome bool :=
  (let incompatibles := yget d "incompatible" in
   if is_none incompatibles then Ret validated
   else
     entries <- py_iter incompatibles ;;
     ' (validated, has_forbidden_icompabilities) <-
        for_each incompatible_entry_step entries (validated, false) ;;
     Ret (validated && negb has_forbidden_icompabilities))%py.

(** [if optional_content is not None: ...] *)
Definition validate_optional_content_part (d : list (string * yaml))
  (validated : bool) : outcome bool :=
  (let optional_content := yget d "optional_content" in
   if is_none optional_content then Ret validated
   else
     ok <- validate_list optional_content schema_optional_content ;;
     let validated := validated && ok in
     if validated then
       options <- py_iter optional_content ;;
       for_each optional_content_step options validated
     else Ret validated)%py.

Section Validation.

Context {E : Env}.

(** One turn of the loop over the install settings of an option in the
    directory checks. *)
Definition setting_dir_step (mod_path mod_identifier : string) (option : yaml)
  (validated : bool) (setting : yaml) : outcome bool :=
  (option_name <- yaml_get option "name" ;;
   setting_name <- yaml_get setting "name" ;;
   option_dir <- path_part option_name ;;
   setting_dir <- path_part setting_name ;;
   Ret (validated
        && os_path_isdir
             (os_path_join [mod_path; mod_identifier; option_dir; setting_dir])))%py.

(** One turn of the loop over [optional_content] in the directory checks. *)
Definition option_dir_step (mod_path mod_identifier : string)
  (validated : bool) (option : yaml) : outcome bool :=
  (option_name <- yaml_get option "name" ;;
   option_dir <- path_part option_name ;;
   let validated :=
     validated
     && os_path_isdir (os_path_join [mod_path; mod_identifier; option_dir]) in
   install_settings <- yaml_get option "install_settings" ;;
   if is_none install_settings then Ret validated
   else
     settings <- py_iter install_settings ;;
     for_each (setting_dir_step mod_path mod_identifier option) settings validated)%py.

(** [if not skip_data_validation: ...]; the name is a [str] once the
    top-level scheme holds. *)
Definition validate_data_part (d : list (string * yaml)) (mod_path : string)
  (skip_data_validation : bool) (validated : bool) : outcome bool :=
  (let optional_content := yget d "optional_content" in
   if negb skip_data_validation then
     mod_name <- path_part (yget d "name") ;;
     let mod_identifier :=
       if String.eqb mod_name "community_remaster" then "remaster" else mod_name in
     let validated :=
       if negb (ytruthy (yget d "no_base_content")) then
         validated
         && os_path_isdir (os_path_join [mod_path; mod_identifier; "data"])
       else validated in
     if is_none optional_content then Ret validated
     else
       options <- py_iter optional_content ;;
       for_each (option_dir_step mod_path mod_identifier) options validated
   else Ret validated)%py.

(** [Mod.validate_install_config] *)
Definition validate_install_config (install_config : yaml)
  (mod_config_path : string) (skip_data_validation : bool) : outcome bool :=
  let mod_path := path_parent (path_parent mod_config_path) in
  match install_config with
  | YDict d =>
      let validated := validate_dict install_config schema_fieds_top in
      if validated then
        (validated <- validate_patcher_options_part d validated ;;
         validated <- validate_prerequisites_part d validated ;;
         validated <- validate_incompatibles_part d validated ;;
         validated <- validate_optional_content_part d validated ;;
         validate_data_part d mod_path skip_data_validation validated)%py
      else Ret validated
  | _ => Ret false
  end.

End Validation.

(** ** The forbidden configurations, as data *)

(** [community_patch] is among the alternative names: the name itself, an
    element of the list of names (or, for a name given as a mapping, one of
    its keys). *)
Definition lists_compatch (entry_name : yaml) : bool :=
  match entry_name with
  | YStr s => String.eqb s "community_patch"
  | YList l => existsb is_compatch l
  | YDict d => existsb (fun kv => String.eqb (fst kv) "community_patch") d
  | _ => false
  end.

(** A prerequisite entry on [community_patch] with optional content. *)
Definition forbidden_prerequisite (entry : yaml) : bool :=
  match entry with
  | YDict d => lists_compatch (yget d "name") && ytruthy (yget d "optional_content")
  | _ => false
  end.

(** An incompatible entry on [community_patch]. *)
Definition forbidden_incompatible (entry : yaml) : bool :=
  match entry with
  | YDict d => lists_compatch (yget d "name")
  | _ => false
  end.

(** ** The prerequisites that [community_remaster] leaves out *)

Definition first_is_compatch (prereq : Prereq) : bool :=
  match prereq_name prereq with
  | first :: _ => String.eqb first "community_patch"
  | [] => false
  end.

Definition without_compatch (self : Mod) : Mod :=
  MkMod (name self) (display_name self) (version self) (build self)
        (filter (fun prereq => negb (first_is_compatch prereq)) (prerequisites self))
        (incompatible self) (patcher_version_requirement self)
        (distibution_dir self) (no_base_content self) (optional_content self).

(** ** A concrete environment

    Used to run the model on concrete inputs: translations are the keys
    themselves, colours are dropped, every directory exists, copies
    succeed, and a set is listed in order of first insertion. *)

Definition compare_op_eq_dec (a b : compare_op) : {a = b} + {a <> b}.
Proof. decide equality. Defined.

#[global] Instance plain_env : Env := {|
  tr := fun key _ => key;
  fconsole := fun text _ => text;
  remove_colors := fun o =>
    match o with
    | Some text => Ret text
    | None => Raise TypeError
    end;
  COMPATCH_GITHUB := "github";
  DEM_DISCORD := "discord";
  WIKI_COMPATCH := "wiki";
  copy_from_to := fun _ _ _ => Ret tt;
  os_path_join := Py.join "/";
  os_path_isdir := fun _ => true;
  path_parent := fun p => p;
  list_of_op_set := nodup compare_op_eq_dec;
  list_of_op_set_NoDup := NoDup_nodup compare_op_eq_dec;
  list_of_op_set_In := fun l o => nodup_In compare_op_eq_dec l o;
  list_of_str_set := nodup string_dec;
  list_of_str_set_NoDup := NoDup_nodup string_dec;
  list_of_str_set_In := fun l x => nodup_In string_dec l x
|}.

(** The same environment with a set listed in the reverse order. *)
#[global] Instance reversed_env : Env := {|
  tr := fun key _ => key;
  fconsole := fun text _ => text;
  remove_colors := fun o =>
    match o with
    | Some text => Ret text
    | None => Raise TypeError
    end;
  COMPATCH_GITHUB := "github";
  DEM_DISCORD := "discord";
  WIKI_COMPATCH := "wiki";
  copy_from_to := fun _ _ _ => Ret tt;
  os_path_join := Py.join "/";
  os_path_isdir := fun _ => true;
  path_parent := fun p => p;
  list_of_op_set := fun l => rev (nodup compare_op_eq_dec l);
  list_of_op_set_NoDup := fun l =>
    NoDup_rev (NoDup_nodup compare_op_eq_dec l);
  list_of_op_set_In := fun l o =>
    iff_trans (iff_sym (in_rev (nodup compare_op_eq_dec l) o))
              (nodup_In compare_op_eq_dec l o);
  list_of_str_set := nodup string_dec;
  list_of_str_set_NoDup := NoDup_nodup string_dec;
  list_of_str_set_In := fun l x => nodup_In string_dec l x
|}.

(** ** The style as the specification words it

    "strict" when the set of operators used is the single operator [=],
    "range" when the constraints contain exactly one lower bound ([>] or
    [>=]) and one upper bound ([<] or [<=]) and no [=], "mixed"
    otherwise. *)

Definition is_lower_bound (o : compare_op) : bool :=
  match o with op_ge | op_gt => true | _ => false end.

Definition is_upper_bound (o : compare_op) : bool :=
  match o with op_le | op_lt => true | _ => false end.

Definition count_ops (p : compare_op -> bool) (ops : list compare_op) : nat :=
  length (filter p ops).

Definition specified_style (versions : list string) : string :=
  let ops := map compare_operation versions in
  match ops with
  | [] => "mixed"
  | _ =>
      if forallb (compare_op_eqb op_eq) ops then "strict"
      else if (count_ops is_lower_bound ops =? 1)%nat
              && (count_ops is_upper_bound ops =? 1)%nat
              && negb (op_in op_eq ops)
           then "range"
           else "mixed"
  end.

(** ** Concrete scenarios *)

Module Scenario.

(** A mod without options, tool requirement or incompatibles. *)
Definition simple_mod (mod_name mod_version mod_build : string)
  (prereqs : list Prereq) : Mod :=
  MkMod mod_name mod_name mod_version mod_build prereqs [] [">=1.10"]
        ("mods/" ++ mod_name) false None.

(** A record of the installed-mods manifest. *)
Definition installed (mod_version mod_build shown : string) : InstalledEntry :=
  [("base", "yes"); ("version", mod_version); ("build", mod_build);
   ("display_name", shown)].

(** S2 of the specification: [beta] 2.3.1 is installed. *)
Definition beta_installed : dict InstalledEntry :=
  [("beta", installed "2.3.1" "1" "Beta")].

Definition requires_beta (versions : list string) : Prereq :=
  MkPrereq ["beta"] (Some versions) None None.

(** S6 of the specification: build "10" is installed, the manifest has
    build "7". *)
Definition alpha_build_7 : Mod := simple_mod "alpha" "1.0.0" "7" [].

Definition alpha_build_10_installed : dict InstalledEntry :=
  [("alpha", installed "1.0.0" "10" "Alpha")].

(** A manifest that passes the top-level scheme, with the given
    prerequisites and incompatibles. *)
Definition manifest (prereqs incompatibles : list yaml) : yaml :=
  YDict [ ("name", YStr "alpha");
          ("display_name", YStr "Alpha");
          ("version", YStr "1.0.0");
          ("build", YStr "1");
          ("description", YStr "a mod");
          ("authors", YStr "someone");
          ("prerequisites", YList prereqs);
          ("incompatible", YList incompatibles);
          ("patcher_version_requirement", YStr ">=1.10");
          ("language", YStr "eng") ].

(** The same manifest with the key [optional_content]. *)
Definition manifest_with_options (prereqs incompatibles options : list yaml)
  : yaml :=
  match manifest prereqs incompatibles with
  | YDict d => YDict (d ++ [("optional_content", YList options)])%list
  | other => other
  end.

(** [{name: community_patch, optional_content: [hd]}] *)
Definition compatch_with_option : yaml :=
  YDict [ ("name", YStr "community_patch");
          ("optional_content", YList [YStr "hd"]) ].

(** [{name: 2077}]: a name that the YAML reader hands over as an [int]. *)
Definition numbered_name : yaml := YDict [ ("name", YInt 2077) ].

(** The mod [community_remaster] with a prerequisite on [community_patch]
    that the game copy does not satisfy. *)
Definition remaster : Mod :=
  simple_mod "community_remaster" "1.14" "1"
             [MkPrereq ["community_patch"] (Some [">=9.0"]) None None].

Definition patch_installed : dict InstalledEntry :=
  [("community_patch", installed "1.13" "1" "Community Patch")].

End Scenario.

(** ** Predicates used in the statements *)

(** A computation that leaves [individual_require_status] alone and whose
    result, if any, satisfies [Q]. *)
Definition respects {A} (Q : A -> Prop) (c : M A) : Prop :=
  forall w,
    individual_require_status (snd (c w)) = individual_require_status w
    /\ forall a, fst (c w) = Ret a -> Q a.

(** The name of a prerequisite or incompatible entry is what the scheme asks
    for: a string or a list (or absent, which the scheme refuses). *)
Definition name_well_typed (entry : yaml) : bool :=
  match entry with
  | YDict d =>
      match yget d "name" with
      | YStr _ | YList _ | YNone => true
      | _ => false
      end
  | _ => true
  end.

(** Every entry of the list stored under [field] has such a name. *)
Definition names_well_typed (d : list (string * yaml)) (field : string) : Prop :=
  forall l, yget d field = YList l -> forallb name_well_typed l = true.

(** A computation that changes nothing. *)
Definition keeps_world {A} (c : M A) : Prop := forall w, snd (c w) = w.

(** A status entry that is not about a prerequisite whose first alternative
    is [community_patch]. *)
Definition kept_entry (entry : status_entry) : Prop :=
  first_is_compatch (fst (fst entry)) = false.

(** The value is a list that holds an entry satisfying [forbidden]. *)
Definition has_forbidden (forbidden : yaml -> bool) (entries : yaml) : Prop :=
  exists l entry, entries = YList l /\ In entry l /\ forbidden entry = true.

(** ** Well-formed versions *)

(** A component of a version as [Version.__init__] keeps it: free of dots
    and dashes and within the bound of its slice. *)
Definition clean_component (bound : nat) (s : string) : bool :=
  negb (Py.contains "."%char s) && negb (Py.contains "-"%char s)
  && (String.length s <=? bound)%nat.

Definition well_formed_version (v : Version) : bool :=
  clean_component 4 (major v) && clean_component 4 (minor v)
  && clean_component 10 (patch v).

(** ** Further predicates on computations *)

(** A computation whose result, if any, satisfies [Q]. *)
Definition yields {A} (Q : A -> Prop) (c : M A) : Prop :=
  forall w a, fst (c w) = Ret a -> Q a.

(** A computation that leaves the observation [f] of the mod unchanged. *)
Definition preserves {X A} (f : World -> X) (c : M A) : Prop :=
  forall w, f (snd (c w)) = f w.

(** ** The record of the individual checks *)

(** The prerequisites that [check_requirements] examines: all of them
    except, for the mod [community_remaster], those whose first alternative
    is [community_patch]. *)
Definition examined (self : Mod) (prereq : Prereq) : bool :=
  negb (String.eqb (name self) "community_remaster" && first_is_compatch prereq).

Definition examined_prerequisites (self : Mod) : list Prereq :=
  filter (examined self) (prerequisites self).

(** The parts of a status entry. *)
Definition status_names (entry : status_entry) : list string :=
  prereq_name (fst (fst entry)).

Definition status_verdict (entry : status_entry) : bool := snd (fst entry).

Definition status_messages (entry : status_entry) : list string := snd entry.

(** What a run of the loop of [check_requirements] over [l] adds to the
    record and to its state [(requirements_met, error_msg)]. *)
Definition loop_record (self : Mod) (l : list Prereq)
  (acc acc' : bool * list string) (w w' : World) (entries : list status_entry)
  : Prop :=
  individual_require_status w' = (individual_require_status w ++ entries)%list
  /\ map status_names entries = map prereq_name (filter (examined self) l)
  /\ fst acc' = fst acc && forallb status_verdict entries
  /\ snd acc' = (snd acc ++ concat (map status_messages entries))%list
  /\ Forall (fun e => status_verdict e = true <-> status_messages e = [])
            entries
  /\ copied w' = copied w.

(** ** The order of triples of integers *)

(** Python's [<] on 3-tuples of [int], as a proposition. *)
Definition triple_lt (x y : Z * Z * Z) : Prop :=
  let '(x1, x2, x3) := x in
  let '(y1, y2, y3) := y in
  (x1 < y1 \/ (x1 = y1 /\ (x2 < y2 \/ (x2 = y2 /\ x3 < y3))))%Z.

(** * Properties *)

(** ** Versions *)

Lemma triple_eqb_string_refl (x : string * string * string) :
  triple_eqb String.eqb x x = true.
Proof.
  destruct x as [[a b] c]; simpl.
  now rewrite !String.eqb_refl.
Qed.

Lemma triple_eqb_Z_spec (x y : Z * Z * Z) :
  triple_eqb Z.eqb x y = true <-> x = y.
Proof.
  destruct x as [[x1 x2] x3], y as [[y1 y2] y3]; simpl.
  rewrite !andb_true_iff, !Z.eqb_eq.
  split.
  - intros [[-> ->] ->]; reflexivity.
  - intros H; inversion H; auto.
Qed.

Lemma Version_eq_refl (v : Version) : Version_eq v v = true.
Proof.
  unfold Version_eq.
  destruct (is_numeric v && is_numeric v).
  - apply triple_eqb_Z_spec; reflexivity.
  - apply triple_eqb_string_refl.
Qed.

(** Outside the numeric case [__lt__] always fails, and so does every
    ordering derived from it. *)
Lemma Version_lt_non_numeric (a b : Version) :
  is_numeric a && is_numeric b = false ->
  Version_lt a b = Raise AttributeError.
Proof.
  intros H; unfold Version_lt; now rewrite H.
Qed.

Lemma ordering_non_numeric (o : compare_op) (a b : Version) :
  is_numeric a && is_numeric b = false ->
  o <> op_eq ->
  apply_op o a b = Raise AttributeError.
Proof.
  intros H Ho.
  destruct o; simpl; try congruence;
    unfold Version_ge, Version_le, Version_gt;
    now rewrite (Version_lt_non_numeric _ _ H).
Qed.

Example Version_init_123 :
  Version_init "1.2.3" = MkVersion "1" "2" "3" "".
Proof. reflexivity. Qed.

Example Version_init_beta :
  Version_init "1.2.3-beta" = MkVersion "1" "2" "3" "beta".
Proof. reflexivity. Qed.

Example Version_init_long :
  Version_init "1.2.3.4.5" = MkVersion "1" "2" "345" "".
Proof. reflexivity. Qed.

Example Version_init_bare :
  Version_init "12345" = MkVersion "12345" "0" "0" "".
Proof. reflexivity. Qed.

(** C3, as stated, fails: [Version("1.2.3") == Version("1.2.3-beta")] is
    [True], so [!=] is [False]. *)
Lemma Version_eq_release_and_beta :
  Version_eq (Version_init "1.2.3") (Version_init "1.2.3-beta") = true
  /\ Version_ne (Version_init "1.2.3") (Version_init "1.2.3-beta") = false.
Proof. split; reflexivity. Qed.

(** C3, amended: [==] on versions never reads the identifier. Two version
    strings whose numeric components are numeric compare equal exactly when
    the components are equal as integers, whatever identifier either one
    carries; in particular [Version("1.2.3") == Version("1.2.3")] and
    [Version("1.2.3") == Version("1.2.3-beta")]. *)
Theorem Version_eq_ignores_identifier (s1 s2 : string) :
  is_numeric (Version_init s1) = true ->
  is_numeric (Version_init s2) = true ->
  (Version_eq (Version_init s1) (Version_init s2) = true
   <-> int_triple (Version_init s1) = int_triple (Version_init s2))
  /\ (forall i1 i2 : string,
        let with_identifier (v : Version) (i : string) :=
          MkVersion (major v) (minor v) (patch v) i in
        Version_eq (with_identifier (Version_init s1) i1)
                   (with_identifier (Version_init s2) i2)
        = Version_eq (Version_init s1) (Version_init s2)).
Proof.
  intros H1 H2; split.
  - unfold Version_eq; rewrite H1, H2.
    apply triple_eqb_Z_spec.
  - intros i1 i2; reflexivity.
Qed.

Lemma Version_eq_ignores_identifier_witness :
  Version_eq (Version_init "1.2.3") (Version_init "1.2.3") = true
  /\ Version_eq (Version_init "1.2.3") (Version_init "1.2.3-beta") = true.
Proof.
  split.
  - apply (proj1 (@Version_eq_ignores_identifier "1.2.3" "1.2.3" eq_refl eq_refl)).
    reflexivity.
  - apply (proj1 (@Version_eq_ignores_identifier "1.2.3" "1.2.3-beta"
                    eq_refl eq_refl)).
    reflexivity.
Defined.

(** C5: on two versions that are not both numeric, [<] does not answer:
    ["1.0a" < "1.0b"] raises [AttributeError], where the claim expects
    [True]. *)
Theorem Version_lt_raises_on_non_numeric :
  is_numeric (Version_init "1.0a") = false
  /\ Version_lt (Version_init "1.0a") (Version_init "1.0b") = Raise AttributeError
  /\ Version_lt (Version_init "1.0b") (Version_init "1.0a") = Raise AttributeError.
Proof. repeat split; reflexivity. Qed.

(** C10: when the two versions are not both numeric, [==] answers [True]
    whatever the components of the other version are. *)
Theorem Version_eq_non_numeric (a b : Version) :
  is_numeric a && is_numeric b = false ->
  Version_eq a b = true.
Proof.
  intros H; unfold Version_eq; rewrite H.
  apply triple_eqb_string_refl.
Qed.

Lemma Version_eq_non_numeric_witness :
  Version_eq (Version_init "1.0a") (Version_init "7.5.2") = true.
Proof.
  apply (@Version_eq_non_numeric (Version_init "1.0a") (Version_init "7.5.2")).
  reflexivity.
Defined.

(** ** The order on build tokens *)

Lemma str_lt_irrefl (a : string) : Py.str_lt a a = false.
Proof.
  induction a as [|c a IH]; simpl; [reflexivity|].
  now rewrite Nat.ltb_irrefl.
Qed.

Lemma str_lt_asym (a b : string) :
  Py.str_lt a b = true -> Py.str_lt b a = false.
Proof.
  revert b; induction a as [|c a IH]; intros [|d b]; simpl; try congruence.
  destruct (Nat.ltb_spec (nat_of_ascii c) (nat_of_ascii d)) as [Hcd|Hcd].
  - intros _.
    destruct (Nat.ltb_spec (nat_of_ascii d) (nat_of_ascii c)); [lia|reflexivity].
  - destruct (Nat.ltb_spec (nat_of_ascii d) (nat_of_ascii c)) as [Hdc|Hdc];
      [congruence|].
    apply IH.
Qed.

Lemma str_lt_total (a b : string) :
  Py.str_lt a b = true \/ a = b \/ Py.str_lt b a = true.
Proof.
  revert b; induction a as [|c a IH]; intros [|d b]; simpl; auto.
  destruct (Nat.ltb_spec (nat_of_ascii c) (nat_of_ascii d)) as [Hcd|Hcd]; auto.
  destruct (Nat.ltb_spec (nat_of_ascii d) (nat_of_ascii c)) as [Hdc|Hdc]; auto.
  assert (c = d) as ->.
  { rewrite <- (ascii_nat_embedding c), <- (ascii_nat_embedding d).
    f_equal; lia. }
  destruct (IH b) as [H|[->|H]]; auto.
Qed.

Lemma str_lt_neq (a b : string) :
  Py.str_lt a b = true -> String.eqb b a = false.
Proof.
  intros H; apply String.eqb_neq; intros ->.
  rewrite str_lt_irrefl in H; discriminate.
Qed.

(** ** Reinstall verdicts *)

(** C2, as stated, fails on its own example: with build "10" installed and
    build "7" in the manifest the reinstall is allowed, with the warning
    [unsafe_reinstall], because "7" is greater than "10" in the order on
    strings. *)
Lemma reinstall_7_over_10_not_blocked :
  Py.str_gt "7" "10" = true
  /\ check_reinstallability (E := plain_env) Scenario.alpha_build_7
       Scenario.alpha_build_10_installed []
     = Ret (true, true, "unsafe_reinstall",
            Some (Scenario.installed "1.0.0" "10" "Alpha"))
  /\ forall previous,
       check_reinstallability (E := plain_env) Scenario.alpha_build_7
         Scenario.alpha_build_10_installed []
       <> Ret (true, false, "cant_reinstall_over_newer_build", previous).
Proof.
  repeat split; try reflexivity.
  intros previous; vm_compute; discriminate.
Qed.

(** C2, amended: let the installed entry for the mod's name carry a version
    that compares equal to the manifest's, and let no mod other than the mod
    and the alternatives of its prerequisites be installed. With builds
    ordered as strings, an equal build is answered with [safe_reinstall]
    (allowed), a manifest build greater than the installed one with
    [unsafe_reinstall] (allowed), a smaller one with
    [cant_reinstall_over_newer_build] (blocked); the two allowed warnings are
    the [complex_] ones when the mod declares optional content. In
    particular build "7" over installed build "10" is allowed with
    [unsafe_reinstall], "7" being greater than "10" as a string. *)
Theorem reinstall_verdict_on_equal_versions (E : Env) (self : Mod)
  (existing_content : dict InstalledEntry)
  (existing_content_descriptions : dict string)
  (previous : InstalledEntry) (previous_version previous_build : string) :
  dict_get existing_content (name self) = Some previous ->
  existing_other_mods self existing_content = [] ->
  dict_get previous "version" = Some previous_version ->
  Version_eq (Version_init previous_version) (Version_init (version self)) = true ->
  dict_get previous "build" = Some previous_build ->
  let verdict (allowed : bool) (warning : string) :=
    check_reinstallability self existing_content existing_content_descriptions
    = Ret (true, allowed, tr warning [], Some previous) in
  let complex := Py.truthy (optional_content self) in
  (build self = previous_build ->
   verdict true (if complex then "complex_safe_reinstall" else "safe_reinstall"))
  /\ (Py.str_lt previous_build (build self) = true ->
      verdict true
        (if complex then "complex_unsafe_reinstall" else "unsafe_reinstall"))
  /\ (Py.str_lt (build self) previous_build = true ->
      verdict false "cant_reinstall_over_newer_build").
Proof.
  intros Hprev Hothers Hver Heq Hbuild verdict complex.
  assert (Hstart :
    check_reinstallability self existing_content existing_content_descriptions
    = if String.eqb (build self) previous_build then
        if complex
        then Ret (true, true, tr "complex_safe_reinstall" [], Some previous)
        else Ret (true, true, tr "safe_reinstall" [], Some previous)
      else if Py.str_gt (build self) previous_build then
        if complex
        then Ret (true, true, tr "complex_unsafe_reinstall" [], Some previous)
        else Ret (true, true, tr "unsafe_reinstall" [], Some previous)
      else Ret (true, false, tr "cant_reinstall_over_newer_build" [],
                Some previous)).
  { unfold check_reinstallability.
    rewrite Hprev.
    replace (if String.eqb (name self) "community_remaster"
             then Some previous else Some previous)
      with (Some previous) by (now destruct (String.eqb _ _)).
    rewrite Hothers.
    unfold dict_item; rewrite Hver; cbn [obind].
    rewrite Heq, Hbuild; cbn [obind].
    reflexivity. }
  unfold verdict; rewrite Hstart; repeat split.
  - intros ->. rewrite String.eqb_refl. now destruct complex.
  - intros Hlt. rewrite (str_lt_neq _ _ Hlt).
    unfold Py.str_gt; rewrite Hlt. now destruct complex.
  - intros Hlt.
    assert (String.eqb (build self) previous_build = false) as ->.
    { rewrite String.eqb_sym. now apply str_lt_neq. }
    unfold Py.str_gt. now rewrite (str_lt_asym _ _ Hlt).
Qed.

Lemma reinstall_verdict_on_equal_versions_witness :
  check_reinstallability (E := plain_env) Scenario.alpha_build_7
    Scenario.alpha_build_10_installed []
  = Ret (true, true, "unsafe_reinstall",
         Some (Scenario.installed "1.0.0" "10" "Alpha")).
Proof.
  exact (proj1 (proj2
           (@reinstall_verdict_on_equal_versions plain_env
              Scenario.alpha_build_7 Scenario.alpha_build_10_installed []
              (Scenario.installed "1.0.0" "10" "Alpha") "1.0.0" "10"
              eq_refl eq_refl eq_refl eq_refl eq_refl))
         eq_refl).
Defined.

(** ** Version constraints of a prerequisite *)

Lemma for_each_app {A S} (body : S -> A -> outcome S) (l1 l2 : list A) (acc : S) :
  for_each body (l1 ++ l2)%list acc
  = obind (for_each body l1 acc) (for_each body l2).
Proof.
  revert acc; induction l1 as [|x l1 IH]; intros acc; simpl; [reflexivity|].
  destruct (body acc x); simpl; auto.
Qed.

(** The verdict of a turn of the loop does not read the verdict reached
    before it. *)
Lemma requirement_version_step_forgets (existing_content : dict InstalledEntry)
  (required_mod_name : option string) (before before' : bool)
  (ops : list compare_op) (version : string) :
  requirement_version_step existing_content required_mod_name (before, ops) version
  = requirement_version_step existing_content required_mod_name (before', ops) version.
Proof. reflexivity. Qed.

(** Hence the verdict of the whole loop is the verdict of its last turn. *)
Lemma requirement_versions_last (existing_content : dict InstalledEntry)
  (required_mod_name : option string) (versions : list string) (last : string)
  (verdict : bool) (ops : list compare_op) :
  requirement_versions existing_content required_mod_name (versions ++ [last])%list
  = Ret (verdict, ops) ->
  exists ops0,
    requirement_version_step existing_content required_mod_name (true, ops0) last
    = Ret (verdict, ops).
Proof.
  unfold requirement_versions; rewrite for_each_app.
  destruct (for_each _ versions (true, [])) as [[before ops0]|e]; simpl;
    [|discriminate].
  destruct (requirement_version_step _ _ (before, ops0) last)
    as [r|e] eqn:Hstep; simpl; [|discriminate].
  intros H; injection H as ->.
  exists ops0.
  now rewrite (@requirement_version_step_forgets _ _ true before).
Qed.

(** C1: the verdict is not a conjunction. [beta] 2.3.1 is installed and the
    prerequisite asks for [">=3.0", "<4.0"]: the first constraint is not
    satisfied, yet [version_validated] ends [True] and the prerequisite is
    validated without a message. [check_incompatible] assigns
    [version_incomp] in the same way. *)
Theorem version_verdict_is_last_constraint (E : Env) :
  let alpha := Scenario.simple_mod "alpha" "1.0.0" "1" [] in
  let prereq := Scenario.requires_beta [">=3.0"; "<4.0"] in
  apply_op op_ge (Version_init "2.3.1") (Version_init "3.0") = Ret false
  /\ requirement_versions Scenario.beta_installed (Some "beta") [">=3.0"; "<4.0"]
     = Ret (true, [op_ge; op_lt])
  /\ fst (check_requirement alpha prereq Scenario.beta_installed [] false World_init)
     = Ret (true, [], set_name_label prereq "Beta")
  /\ incompatible_versions "2.3.1" [">=3.0"; "<4.0"] = Ret (true, [op_ge; op_lt]).
Proof. repeat split; reflexivity. Qed.

(** ** The copy plan *)

(** C4: the value bound to [base] is not consulted. With the selection
    [{base: "skip"}] the plan is the base data directory, for a mod with
    base content and for a mod flagged [no_base_content] alike, and
    [install] hands it to [copy_from_to]. *)
Theorem base_is_copied_when_skipped (E : Env) :
  let alpha := Scenario.simple_mod "alpha" "1.0.0" "1" [] in
  let bare :=
    MkMod "alpha" "alpha" "1.0.0" "1" [] [] [">=1.10"] "mods/alpha" true None in
  install_mod_files alpha [("base", Some "skip")]
  = Ret [os_path_join ["mods/alpha"; "data"]]
  /\ install_mod_files bare [("base", Some "skip")]
     = Ret [os_path_join ["mods/alpha"; "data"]]
  /\ install (E := plain_env) alpha "game/data" [("base", Some "skip")] [] [] false
             World_init
     = (Ret (true, []),
        MkWorld "mixed" "mixed" [] [] [(["mods/alpha/data"], "game/data")]).
Proof. repeat split; reflexivity. Qed.

(** What the plan does hold by construction: an option set to ["yes"]
    contributes its data directory, an option set to ["skip"] nothing, and
    an option installed with a named setting its data directory followed by
    the directory of the setting. *)
Lemma install_setting_step_option (E : Env) (self : Mod)
  (install_settings : dict (option string)) (mod_files : list string)
  (key choice : string) (wip_setting : OptionalContent) :
  String.eqb key "base" = false ->
  dict_get (options_dict self) key = Some wip_setting ->
  dict_get install_settings key = Some (Some choice) ->
  let data_dir :=
    os_path_join [distibution_dir self; option_name wip_setting; "data"] in
  install_setting_step self install_settings mod_files key
  = Ret (if String.eqb choice "yes" then append mod_files data_dir
         else if String.eqb choice "skip" then mod_files
         else append (append mod_files data_dir)
                (os_path_join [distibution_dir self; option_name wip_setting;
                               choice])).
Proof.
  intros Hkey Hopt Hsel data_dir.
  unfold install_setting_step, dict_item.
  rewrite Hkey, Hopt, Hsel; cbn [obind].
  destruct (String.eqb choice "yes"); [reflexivity|].
  destruct (String.eqb choice "skip"); reflexivity.
Qed.

(** ** The style of a constraint set *)

Lemma NoDup_all_same {A} (a : A) (l : list A) :
  NoDup l -> (forall o, In o l -> o = a) -> In a l -> l = [a].
Proof.
  intros ND Hall Hin.
  destruct l as [|x [|y rest]]; [contradiction| |].
  - now rewrite (Hall x (or_introl eq_refl)).
  - exfalso.
    assert (x = a) by (apply Hall; simpl; auto).
    assert (y = a) by (apply Hall; simpl; auto).
    subst. inversion ND as [|? ? Hnotin _]; apply Hnotin; simpl; auto.
Qed.

Lemma NoDup_two_elements {A} (a b : A) (l : list A) :
  NoDup l -> (forall o, In o l <-> o = a \/ o = b) -> a <> b ->
  l = [a; b] \/ l = [b; a].
Proof.
  intros ND Hin Hab.
  assert (Ha : In a l) by (apply Hin; auto).
  assert (Hb : In b l) by (apply Hin; auto).
  destruct l as [|x [|y rest]].
  - contradiction.
  - destruct Ha as [<-|[]], Hb as [<-|[]]. congruence.
  - assert (Hx : x = a \/ x = b) by (apply Hin; simpl; auto).
    assert (Hy : y = a \/ y = b) by (apply Hin; simpl; auto).
    inversion ND as [|? ? Hx_fresh ND']; subst.
    inversion ND' as [|? ? Hy_fresh _]; subst.
    assert (rest = []) as ->.
    { destruct rest as [|z rest]; [reflexivity|exfalso].
      assert (Hz : z = a \/ z = b) by (apply Hin; simpl; auto).
      destruct Hx, Hy, Hz; subst; simpl in *; tauto. }
    destruct Hx, Hy; subst; simpl in *; auto; tauto.
Qed.

Lemma constraints_style_cases (l : list compare_op) :
  constraints_style l = "strict" \/ constraints_style l = "range"
  \/ constraints_style l = "mixed".
Proof.
  unfold constraints_style.
  repeat match goal with
         | |- context [if ?b then _ else _] => destruct b
         end; auto.
Qed.

Lemma constraints_style_strict (l : list compare_op) :
  constraints_style l = "strict" <-> l = [op_eq].
Proof.
  split; [|intros ->; reflexivity].
  destruct l as [|x [|y [|z rest]]]; try (cbv; discriminate).
  - destruct x; cbv; congruence.
  - destruct x, y; cbv; discriminate.
Qed.

Lemma constraints_style_range (l : list compare_op) :
  constraints_style l = "range" ->
  exists x y, l = [x; y]
              /\ ((is_lower_bound x = true /\ is_upper_bound y = true)
                  \/ (x = op_lt /\ is_lower_bound y = true)).
Proof.
  destruct l as [|x [|y [|z rest]]]; try (cbv; discriminate).
  - destruct x; cbv; discriminate.
  - intros H; exists x, y; split; [reflexivity|].
    destruct x, y; cbv in H; try discriminate; cbv; auto.
Qed.

Lemma style_range_lower_and_lt (E : Env) (compare_ops : list compare_op)
  (lower : compare_op) :
  is_lower_bound lower = true ->
  (forall o, In o compare_ops <-> o = lower \/ o = op_lt) ->
  constraints_style (list_of_op_set compare_ops) = "range".
Proof.
  intros Hlow Hset.
  assert (lower <> op_lt) by (intros ->; discriminate).
  destruct (@NoDup_two_elements _ lower op_lt (list_of_op_set compare_ops))
    as [Hl|Hl]; trivial.
  - apply list_of_op_set_NoDup.
  - intros o; rewrite list_of_op_set_In; apply Hset.
  - rewrite Hl. destruct lower; try discriminate; reflexivity.
  - rewrite Hl. destruct lower; try discriminate; reflexivity.
Qed.

(** S2 of the specification, for every listing order of the set. *)
Lemma style_of_range_prerequisite (E : Env) (w : World) :
  let prereq := Scenario.requires_beta [">=2.0"; "<3.0"] in
  let run :=
    check_requirement (Scenario.simple_mod "alpha" "1.0.0" "1" [])
                      prereq Scenario.beta_installed [] false w in
  fst run = Ret (true, [], set_name_label prereq "Beta")
  /\ requirements_style (snd run) = "range".
Proof.
  intros prereq run.
  assert (Hrun :
    run = (Ret (true, [], set_name_label prereq "Beta"),
           MkWorld (constraints_style (list_of_op_set [op_ge; op_lt]))
                   (incompatibles_style w) (individual_require_status w)
                   (individual_incomp_status w) (copied w)))
    by reflexivity.
  rewrite Hrun; split; [reflexivity|].
  cbn [snd requirements_style].
  apply style_range_lower_and_lt with (lower := op_ge); [reflexivity|].
  intros o; simpl; intuition congruence.
Qed.

(** ** Where the style is stored *)

Lemma version_steps_ops (step : bool * list compare_op -> string ->
                                outcome (bool * list compare_op)) :
  (forall acc version acc',
      step acc version = Ret acc' ->
      snd acc' = append (snd acc) (compare_operation version)) ->
  forall versions acc acc',
    for_each step versions acc = Ret acc' ->
    snd acc' = (snd acc ++ map compare_operation versions)%list.
Proof.
  intros Hstep versions; induction versions as [|v versions IH];
    intros acc acc'; simpl.
  - intros H; injection H as <-. now rewrite app_nil_r.
  - destruct (step acc v) as [acc1|ex] eqn:H1; simpl; [|discriminate].
    intros H2. rewrite (IH _ _ H2), (Hstep _ _ _ H1).
    unfold append. now rewrite <- app_assoc.
Qed.

Lemma requirement_versions_ops (existing_content : dict InstalledEntry)
  (required_mod_name : option string) (versions : list string)
  (verdict : bool) (ops : list compare_op) :
  requirement_versions existing_content required_mod_name versions
  = Ret (verdict, ops) ->
  ops = map compare_operation versions.
Proof.
  intros H.
  apply (version_steps_ops
           (requirement_version_step existing_content required_mod_name))
    in H; [exact H|].
  intros acc version acc'; unfold requirement_version_step.
  destruct (installed_item _ _); simpl; [|discriminate].
  destruct (dict_item _ _); simpl; [|discriminate].
  destruct (apply_op _ _ _); simpl; [|discriminate].
  match goal with |- (if ?b then _ else _) = _ -> _ => destruct b end;
    intros H'; injection H' as <-; reflexivity.
Qed.

Lemma incompatible_versions_ops (installed_version : string)
  (versions : list string) (verdict : bool) (ops : list compare_op) :
  incompatible_versions installed_version versions = Ret (verdict, ops) ->
  ops = map compare_operation versions.
Proof.
  intros H.
  apply (version_steps_ops (incompatible_version_step installed_version))
    in H; [exact H|].
  intros acc version acc'; unfold incompatible_version_step.
  destruct (apply_op _ _ _); simpl; [|discriminate].
  match goal with |- (if ?b then _ else _) = _ -> _ => destruct b end;
    intros H'; injection H' as <-; reflexivity.
Qed.

Lemma keeps_world_mret {A} (a : A) : keeps_world (mret a).
Proof. intros w; reflexivity. Qed.

Lemma keeps_world_lift {A} (c : outcome A) : keeps_world (lift c).
Proof. intros w; reflexivity. Qed.

Lemma keeps_world_mbind {A B} (c : M A) (k : A -> M B) :
  keeps_world c -> (forall a, keeps_world (k a)) -> keeps_world (mbind c k).
Proof.
  intros Hc Hk w; unfold mbind.
  pose proof (Hc w) as Hw.
  destruct (c w) as [[a|ex] w']; simpl in *; subst; [apply Hk|reflexivity].
Qed.

Ltac keeps_world_step :=
  first
    [ apply keeps_world_lift
    | apply keeps_world_mret
    | apply keeps_world_mbind; [|intros ?]
    | match goal with
      | |- keeps_world (match ?x with _ => _ end) => destruct x
      | |- keeps_world (if ?b then _ else _) => destruct b
      end ].

Lemma snd_mbind_keeps {A B} (c : M A) (k : A -> M B) (w : World) :
  (forall a, keeps_world (k a)) -> snd (mbind c k w) = snd (c w).
Proof.
  intros Hk; unfold mbind.
  destruct (c w) as [[a|ex] w']; simpl; [apply Hk|reflexivity].
Qed.

Lemma last_installed_found (names : list string)
  (existing_content : dict InstalledEntry) (found : string) :
  last_installed names existing_content = Some found ->
  dict_has existing_content found = true.
Proof.
  unfold last_installed.
  assert (Hgen : forall start,
             (forall n, start = Some n -> dict_has existing_content n = true) ->
             fold_left (fun found possible =>
                          match dict_get existing_content possible with
                          | Some _ => Some possible
                          | None => found
                          end) names start = Some found ->
             dict_has existing_content found = true).
  { induction names as [|n names IH]; intros start Hstart; simpl.
    - apply Hstart.
    - apply IH. intros m.
      destruct (dict_get existing_content n) eqn:Hn; [|apply Hstart].
      intros H; injection H as <-. unfold dict_has; now rewrite Hn. }
  apply Hgen; discriminate.
Qed.

Section StoredStyle.

Context {E : Env}.
Variable self : Mod.
Variable entry : Prereq.
Variable existing_content : dict InstalledEntry.
Variable existing_content_descriptions : dict string.
Variables (installed_name : string) (versions : list string).
Variable labels : list string * bool.
Hypothesis installed :
  last_installed (prereq_name entry) existing_content = Some installed_name.
Hypothesis labelled :
  for_each (name_label_step existing_content) (prereq_name entry) ([], false)
  = Ret labels.
Hypothesis constrained : prereq_versions entry = Some versions.
Hypothesis some_constraint : versions <> [].

(** [check_requirement] stores the style of the operators of the
    constraints, once the name is validated and the constraints have been
    evaluated. *)
Lemma check_requirement_stores_style (is_compatch_env : bool) (w : World)
  (verdict : bool) (ops : list compare_op) :
  compatch_on_comrem self entry existing_content = false ->
  requirement_versions existing_content (Some installed_name) versions
  = Ret (verdict, ops) ->
  requirements_style
    (snd (check_requirement self entry existing_content
            existing_content_descriptions is_compatch_env w))
  = constraints_style (list_of_op_set (map compare_operation versions)).
Proof.
  intros Hcompatch Hloop.
  rewrite <- (requirement_versions_ops _ _ _ Hloop).
  unfold check_requirement.
  rewrite installed, Hcompatch, constrained.
  destruct versions as [|v vs]; [congruence|].
  unfold mbind at 1, lift at 1. rewrite labelled.
  destruct labels as [name_label only_technical].
  rewrite snd_mbind_keeps.
  - unfold mbind, lift. rewrite Hloop. reflexivity.
  - intros version_validated. repeat keeps_world_step.
Qed.

(** [check_incompatible] does the same for [incompatibles_style]. *)
Lemma check_incompatible_stores_style (w : World) (record : InstalledEntry)
  (installed_version : string) (verdict : bool) (ops : list compare_op) :
  dict_get existing_content installed_name = Some record ->
  dict_get record "version" = Some installed_version ->
  incompatible_versions installed_version versions = Ret (verdict, ops) ->
  incompatibles_style
    (snd (check_incompatible self entry existing_content
            existing_content_descriptions w))
  = constraints_style (list_of_op_set (map compare_operation versions)).
Proof.
  intros Hrecord Hversion Hloop.
  rewrite <- (incompatible_versions_ops _ _ Hloop).
  unfold check_incompatible.
  rewrite installed, constrained.
  destruct versions as [|v vs]; [congruence|].
  unfold mbind at 1, lift at 1. rewrite labelled.
  destruct labels as [name_label only_technical].
  rewrite snd_mbind_keeps.
  - unfold mbind, lift, dict_item. rewrite Hrecord, Hversion, Hloop. reflexivity.
  - intros [version_incomp version_label]. repeat keeps_world_step.
Qed.

End StoredStyle.

(** C6, as stated, fails: with [">=1.0", ">=2.0", "<3.0"] the constraints
    hold two lower bounds, for which the claim says "mixed", and the stored
    style is "range". *)
Lemma style_range_with_two_lower_bounds :
  requirements_style
    (snd (check_requirement (E := plain_env)
            (Scenario.simple_mod "alpha" "1.0.0" "1" [])
            (Scenario.requires_beta [">=1.0"; ">=2.0"; "<3.0"])
            Scenario.beta_installed [] false World_init))
  <> specified_style [">=1.0"; ">=2.0"; "<3.0"].
Proof. vm_compute; discriminate. Qed.

(** The outcome for a lower bound together with [<=] follows the order in
    which the set of operators is listed. *)
Lemma style_follows_set_order :
  constraints_style (list_of_op_set (Env := plain_env) [op_le; op_ge]) = "mixed"
  /\ constraints_style (list_of_op_set (Env := reversed_env) [op_le; op_ge])
     = "range".
Proof. split; reflexivity. Qed.

(** The style as a function of the set of operators. *)
Lemma constraints_style_of_operator_set (E : Env) (compare_ops : list compare_op) :
  let style := constraints_style (list_of_op_set compare_ops) in
  let only_eq := compare_ops <> [] /\ forall o, In o compare_ops -> o = op_eq in
  let bounds (lower upper : compare_op) :=
    is_lower_bound lower = true /\ is_upper_bound upper = true
    /\ forall o, In o compare_ops <-> o = lower \/ o = upper in
  (style = "strict" <-> only_eq)
  /\ (forall lower, bounds lower op_lt -> style = "range")
  /\ (style = "range" -> exists lower upper, bounds lower upper)
  /\ (~ only_eq -> (forall lower upper, ~ bounds lower upper) -> style = "mixed").
Proof.
  intros style only_eq bounds.
  pose proof (list_of_op_set_NoDup compare_ops) as ND.
  pose proof (list_of_op_set_In compare_ops) as IN.
  assert (Hstrict : style = "strict" <-> only_eq).
  { unfold style; rewrite constraints_style_strict; split.
    - intros Hl; rewrite Hl in IN; split.
      + intros ->. apply (IN op_eq); simpl; auto.
      + intros o Ho. apply IN in Ho. destruct Ho as [<-|[]]; reflexivity.
    - intros [Hne Hall].
      apply NoDup_all_same; trivial.
      + intros o Ho; apply Hall, IN, Ho.
      + apply IN. destruct compare_ops as [|o rest]; [congruence|].
        rewrite <- (Hall o) at 1; simpl; auto. }
  assert (Hrange_lt : forall lower, bounds lower op_lt -> style = "range").
  { intros lower (Hlow & _ & Hset).
    now apply style_range_lower_and_lt with (lower := lower). }
  assert (Hrange : style = "range" -> exists lower upper, bounds lower upper).
  { intros Hs. apply constraints_style_range in Hs.
    destruct Hs as (x & y & Hl & [[Hx Hy]|[-> Hy]]); rewrite Hl in IN.
    - exists x, y; repeat split; trivial.
      + intros Ho; apply IN in Ho; simpl in Ho; intuition (subst; auto).
      + intros [->| ->]; apply IN; simpl; auto.
    - exists y, op_lt; repeat split; trivial.
      + intros Ho; apply IN in Ho; simpl in Ho; intuition (subst; auto).
      + intros [->| ->]; apply IN; simpl; auto. }
  split; [exact Hstrict|].
  split; [exact Hrange_lt|].
  split; [exact Hrange|].
  intros Hnot_eq Hnot_bounds.
  destruct (constraints_style_cases (list_of_op_set compare_ops))
    as [Hs|[Hs|Hs]]; trivial.
  - exfalso; apply Hnot_eq, Hstrict, Hs.
  - exfalso. destruct (Hrange Hs) as (lower & upper & Hb).
    exact (Hnot_bounds lower upper Hb).
Qed.

(** C6, amended: once the name of a prerequisite is validated (the mod of an
    incompatible entry is installed) and its constraints have been evaluated,
    the style stored in [requirements_style] ([incompatibles_style]) is a
    function of the set of operators used, not of the number of
    constraints. It is "strict" exactly when that set is the single operator
    [=]; it is "range" when the set is one lower bound ([>] or [>=])
    together with [<], and only when the set is one lower bound together
    with one upper bound; it is "mixed" in every other case. In particular a
    prerequisite on an installed [beta] 2.3.1 with versions
    [">=2.0", "<3.0"] is validated with style "range". *)
Theorem stored_style_by_operator_set (E : Env) (self : Mod) (entry : Prereq)
  (existing_content : dict InstalledEntry)
  (existing_content_descriptions : dict string) (versions : list string) :
  let compare_ops := map compare_operation versions in
  let style := constraints_style (list_of_op_set compare_ops) in
  let only_eq := compare_ops <> [] /\ forall o, In o compare_ops -> o = op_eq in
  let bounds (lower upper : compare_op) :=
    is_lower_bound lower = true /\ is_upper_bound upper = true
    /\ forall o, In o compare_ops <-> o = lower \/ o = upper in
  let evaluated (installed_name : string) :=
    last_installed (prereq_name entry) existing_content = Some installed_name
    /\ (exists labels,
          for_each (name_label_step existing_content) (prereq_name entry)
                   ([], false) = Ret labels)
    /\ prereq_versions entry = Some versions /\ versions <> [] in
  (forall installed_name is_compatch_env w verdict ops,
      evaluated installed_name ->
      compatch_on_comrem self entry existing_content = false ->
      requirement_versions existing_content (Some installed_name) versions
      = Ret (verdict, ops) ->
      requirements_style
        (snd (check_requirement self entry existing_content
                existing_content_descriptions is_compatch_env w)) = style)
  /\ (forall installed_name w record installed_version verdict ops,
        evaluated installed_name ->
        dict_get existing_content installed_name = Some record ->
        dict_get record "version" = Some installed_version ->
        incompatible_versions installed_version versions = Ret (verdict, ops) ->
        incompatibles_style
          (snd (check_incompatible self entry existing_content
                  existing_content_descriptions w)) = style)
  /\ (style = "strict" <-> only_eq)
  /\ (forall lower, bounds lower op_lt -> style = "range")
  /\ (style = "range" -> exists lower upper, bounds lower upper)
  /\ (~ only_eq -> (forall lower upper, ~ bounds lower upper) -> style = "mixed")
  /\ (forall w,
        let prereq := Scenario.requires_beta [">=2.0"; "<3.0"] in
        let run :=
          check_requirement (Scenario.simple_mod "alpha" "1.0.0" "1" [])
                            prereq Scenario.beta_installed [] false w in
        fst run = Ret (true, [], set_name_label prereq "Beta")
        /\ requirements_style (snd run) = "range").
Proof.
  intros compare_ops style only_eq bounds evaluated.
  split.
  { intros installed_name is_compatch_env w verdict ops
           (Hinstalled & [labels Hlabels] & Hversions & Hsome) Hcompatch Hloop.
    exact (@check_requirement_stores_style E self entry existing_content
             existing_content_descriptions installed_name versions labels
             Hinstalled Hlabels Hversions Hsome is_compatch_env w verdict ops
             Hcompatch Hloop). }
  split.
  { intros installed_name w record installed_version verdict ops
           (Hinstalled & [labels Hlabels] & Hversions & Hsome)
           Hrecord Hversion Hloop.
    exact (@check_incompatible_stores_style E self entry existing_content
             existing_content_descriptions installed_name versions labels
             Hinstalled Hlabels Hversions Hsome w record installed_version
             verdict ops Hrecord Hversion Hloop). }
  destruct (constraints_style_of_operator_set E compare_ops)
    as (Hstrict & Hrange_lt & Hrange & Hmixed).
  split; [exact Hstrict|].
  split; [exact Hrange_lt|].
  split; [exact Hrange|].
  split; [exact Hmixed|].
  intros w. apply style_of_range_prerequisite.
Qed.

(** ** [install] and exceptions *)

(** C8: [install] always returns, and whenever its body raises, what it
    returns is [(False, [])]; the attributes keep the values they had when
    the exception was raised. *)
Theorem install_never_raises (E : Env) (self : Mod) (game_data_path : string)
  (install_settings : dict (option string))
  (existing_content : dict InstalledEntry)
  (existing_content_descriptions : dict string) (console : bool) (w : World) :
  let result :=
    install self game_data_path install_settings existing_content
            existing_content_descriptions console w in
  let body :=
    install_body self game_data_path install_settings existing_content
                 existing_content_descriptions console w in
  (exists status errors, fst result = Ret (status, errors))
  /\ (forall ex, fst body = Raise ex -> result = (Ret (false, []), snd body))
  /\ (forall value, fst body = Ret value -> result = body).
Proof.
  intros result body; unfold result, install, try_except; fold body.
  destruct body as [[[status errors]|ex] w']; simpl.
  - split; [eauto|]. split; [discriminate|reflexivity].
  - split; [eauto|]. split; [reflexivity|discriminate].
Qed.

(** A selection that names an option the mod does not declare makes the
    body raise [KeyError]; [install] answers [(False, [])]. *)
Lemma install_never_raises_witness :
  let settings := [("base", Some "yes"); ("ghost", Some "yes")] in
  fst (install_body (E := plain_env) (Scenario.simple_mod "alpha" "1.0.0" "1" [])
         "game/data" settings [] [] false World_init) = Raise KeyError
  /\ install (E := plain_env) (Scenario.simple_mod "alpha" "1.0.0" "1" [])
       "game/data" settings [] [] false World_init
     = (Ret (false, []), World_init).
Proof.
  intros settings; split; [reflexivity|].
  exact (proj1 (proj2
           (@install_never_raises plain_env
              (Scenario.simple_mod "alpha" "1.0.0" "1" []) "game/data" settings
              [] [] false World_init))
         KeyError eq_refl).
Defined.

(** ** [community_remaster] and its prerequisite on [community_patch] *)

Lemma skipped_for_remaster_spec (self : Mod) (prereq : Prereq) :
  name self = "community_remaster" ->
  first_is_compatch prereq = true ->
  skipped_for_remaster self prereq = Ret true.
Proof.
  unfold skipped_for_remaster, first_is_compatch; intros -> H; simpl.
  destruct (prereq_name prereq); [discriminate|now rewrite H].
Qed.

Lemma skipped_for_remaster_kept (self : Mod) (prereq : Prereq) :
  name self = "community_remaster" ->
  skipped_for_remaster self prereq = Ret false ->
  first_is_compatch prereq = false.
Proof.
  unfold skipped_for_remaster, first_is_compatch; intros ->; simpl.
  destruct (prereq_name prereq); [discriminate|]. congruence.
Qed.

Lemma mbind_run {A B} (c : M A) (k : A -> M B) (w : World) :
  mbind c k w
  = match c w with
    | (Ret a, w') => k a w'
    | (Raise e, w') => (Raise e, w')
    end.
Proof. reflexivity. Qed.

Lemma mbind_ext_l {A B} (c c' : M A) (k : A -> M B) (w : World) :
  c w = c' w -> mbind c k w = mbind c' k w.
Proof. unfold mbind; now intros ->. Qed.

Lemma mbind_ext_r {A B} (c : M A) (k k' : A -> M B) (w : World) :
  (forall a w', k a w' = k' a w') -> mbind c k w = mbind c k' w.
Proof.
  intros H; unfold mbind. destruct (c w) as [[a|e] w']; auto.
Qed.

Section Remaster.

Context {E : Env}.
Variable self : Mod.
Hypothesis self_is_remaster : name self = "community_remaster".
Variable existing_content : dict InstalledEntry.
Variable existing_content_descriptions : dict string.
Variable is_compatch_env : bool.

Lemma check_requirements_step_skip (acc : bool * list string) (prereq : Prereq)
  (w : World) :
  first_is_compatch prereq = true ->
  check_requirements_step self existing_content existing_content_descriptions
                          is_compatch_env acc prereq w
  = (Ret acc, w).
Proof.
  intros H; unfold check_requirements_step, mbind, lift.
  now rewrite (@skipped_for_remaster_spec self prereq self_is_remaster H).
Qed.

Lemma requirements_loop_filter (l : list Prereq) (acc : bool * list string)
  (w : World) :
  for_eachM (check_requirements_step self existing_content
               existing_content_descriptions is_compatch_env) l acc w
  = for_eachM (check_requirements_step self existing_content
                 existing_content_descriptions is_compatch_env)
              (filter (fun p => negb (first_is_compatch p)) l) acc w.
Proof.
  revert acc w; induction l as [|p l IH]; intros acc w; [reflexivity|].
  simpl. destruct (first_is_compatch p) eqn:Hp; simpl.
  - unfold mbind at 1.
    rewrite (@check_requirements_step_skip acc p w Hp). apply IH.
  - apply mbind_ext_r. intros a w'. apply IH.
Qed.

End Remaster.

Lemma respects_mret {A} (Q : A -> Prop) (a : A) : Q a -> respects Q (mret a).
Proof.
  intros H w; split; [reflexivity|].
  simpl; intros a' Ha; injection Ha as <-; exact H.
Qed.

Lemma respects_lift {A} (c : outcome A) : respects (fun _ => True) (lift c).
Proof. intros w; split; [reflexivity|trivial]. Qed.

Lemma respects_set_requirements_style (s : string) :
  respects (fun _ => True) (set_requirements_style s).
Proof. intros w; split; [reflexivity|trivial]. Qed.

Lemma respects_mbind {A B} (Q : B -> Prop) (c : M A) (k : A -> M B) :
  respects (fun _ => True) c -> (forall a, respects Q (k a)) ->
  respects Q (mbind c k).
Proof.
  intros Hc Hk w; unfold mbind.
  destruct (Hc w) as [Hw _].
  destruct (c w) as [[a|e] w']; simpl in *.
  - destruct (Hk a w') as [Hw' HQ]. split; [congruence|exact HQ].
  - split; [exact Hw|discriminate].
Qed.

Lemma respects_weaken {A} (Q : A -> Prop) (c : M A) :
  respects Q c -> respects (fun _ => True) c.
Proof. intros H w; destruct (H w); split; trivial. Qed.

Ltac respects_step :=
  first
    [ apply respects_lift
    | apply respects_set_requirements_style
    | apply respects_mret
    | apply respects_mbind; [|intros ?]
    | match goal with
      | |- respects _ (match ?x with _ => _ end) => destruct x
      | |- respects _ (if ?b then _ else _) => destruct b
      end ].

Lemma check_requirement_respects (E : Env) (self : Mod) (prereq : Prereq)
  (existing_content : dict InstalledEntry)
  (existing_content_descriptions : dict string) (is_compatch_env : bool) :
  respects (fun r => prereq_name (snd r) = prereq_name prereq)
           (check_requirement self prereq existing_content
                              existing_content_descriptions is_compatch_env).
Proof.
  unfold check_requirement.
  repeat respects_step; trivial.
Qed.

Section RemasterStatus.

Context {E : Env}.
Variable self : Mod.
Hypothesis self_is_remaster : name self = "community_remaster".
Variable existing_content : dict InstalledEntry.
Variable existing_content_descriptions : dict string.
Variable is_compatch_env : bool.

Lemma requirements_step_status (acc : bool * list string) (prereq : Prereq)
  (w : World) :
  Forall kept_entry (individual_require_status w) ->
  Forall kept_entry
    (individual_require_status
       (snd (check_requirements_step self existing_content
               existing_content_descriptions is_compatch_env acc prereq w))).
Proof.
  intros Hw; unfold check_requirements_step, mbind, lift.
  destruct (skipped_for_remaster self prereq) as [[|]|ex] eqn:Hskip; simpl;
    trivial.
  pose proof (@skipped_for_remaster_kept self prereq self_is_remaster Hskip)
    as Hkept.
  destruct (@check_requirement_respects E self prereq existing_content
              existing_content_descriptions is_compatch_env w) as [Hstatus Hname].
  destruct (check_requirement self prereq existing_content
              existing_content_descriptions is_compatch_env w)
    as [[[[validated msgs] prereq']|ex] w1]; simpl in *; [|congruence].
  unfold append; rewrite Hstatus.
  apply Forall_app; split; [exact Hw|].
  constructor; [|constructor].
  unfold kept_entry, first_is_compatch; simpl.
  pose proof (Hname _ eq_refl) as Hn; simpl in Hn.
  rewrite Hn. exact Hkept.
Qed.

Lemma requirements_loop_status (l : list Prereq) (acc : bool * list string)
  (w : World) :
  Forall kept_entry (individual_require_status w) ->
  Forall kept_entry
    (individual_require_status
       (snd (for_eachM (check_requirements_step self existing_content
                          existing_content_descriptions is_compatch_env)
                       l acc w))).
Proof.
  revert acc w; induction l as [|p l IH]; intros acc w Hw; [exact Hw|].
  simpl; unfold mbind.
  pose proof (@requirements_step_status acc p w Hw) as Hstep.
  destruct (check_requirements_step self existing_content
              existing_content_descriptions is_compatch_env acc p w)
    as [[a|ex] w1]; simpl in *; auto.
Qed.

End RemasterStatus.

(** C9: for the mod [community_remaster], [check_requirements] behaves as if
    the prerequisites whose first alternative is [community_patch] were not
    in the manifest: same result, same messages, same attributes. No entry
    of [individual_require_status] is about such a prerequisite (unless the
    check of the tool version raised before the list was cleared), and a
    manifest that has no other prerequisite has its requirements met
    whatever is installed. *)
Theorem remaster_skips_compatch_prerequisite (E : Env) (self : Mod)
  (existing_content : dict InstalledEntry)
  (existing_content_descriptions : dict string) (patcher_version : string)
  (w : World) :
  name self = "community_remaster" ->
  let run :=
    check_requirements self existing_content existing_content_descriptions
                       patcher_version w in
  run = check_requirements (without_compatch self) existing_content
                           existing_content_descriptions patcher_version w
  /\ (patcher_version = "" \/ (exists result, fst run = Ret result) ->
      Forall kept_entry (individual_require_status (snd run)))
  /\ ((forall prereq, In prereq (prerequisites self) ->
                      first_is_compatch prereq = true) ->
      patcher_version = "" ->
      fst run = Ret (true, [])).
Proof.
  intros Hname run.
  assert (Hsame :
    run = check_requirements (without_compatch self) existing_content
            existing_content_descriptions patcher_version w).
  { unfold run, check_requirements.
    apply mbind_ext_r; intros _ w1.
    apply mbind_ext_r; intros _ w2.
    apply mbind_ext_l.
    change (prerequisites (without_compatch self))
      with (filter (fun p => negb (first_is_compatch p)) (prerequisites self)).
    apply (@requirements_loop_filter E self Hname). }
  split; [exact Hsame|split].
  - assert (Hloop : forall env w1,
              Forall kept_entry
                (individual_require_status
                   (snd (for_eachM
                           (check_requirements_step self existing_content
                              existing_content_descriptions env)
                           (prerequisites self) (true, [])
                           (MkWorld (requirements_style w1)
                                    (incompatibles_style w1) []
                                    (individual_incomp_status w1) (copied w1)))))).
    { intros env w1.
      apply (@requirements_loop_status E self Hname existing_content
               existing_content_descriptions env).
      constructor. }
    intros [-> | [result Hresult]].
    + unfold run, check_requirements, mbind; simpl.
      match goal with
      | |- context [for_eachM (check_requirements_step _ _ _ ?env) _ _ ?w'] =>
          pose proof (Hloop env w) as Hw;
          destruct (for_eachM (check_requirements_step self existing_content
                                 existing_content_descriptions env)
                              (prerequisites self) (true, []) w')
            as [[[met msgs]|ex] w2]
      end; simpl in *; exact Hw.
    + revert Hresult; unfold run, check_requirements, mbind.
      match goal with
      | |- context [match ?c w with _ => _ end] =>
          destruct (c w) as [[[]|ex] w1]
      end; simpl; [|discriminate].
      match goal with
      | |- context [for_eachM (check_requirements_step _ _ _ ?env) _ _ ?w'] =>
          pose proof (Hloop env w1) as Hw;
          destruct (for_eachM (check_requirements_step self existing_content
                                 existing_content_descriptions env)
                              (prerequisites self) (true, []) w')
            as [[[met msgs]|ex] w2]
      end; simpl in *; intros _; exact Hw.
  - intros Hall ->.
    rewrite Hsame; unfold check_requirements.
    change (prerequisites (without_compatch self))
      with (filter (fun p => negb (first_is_compatch p)) (prerequisites self)).
    replace (filter (fun p => negb (first_is_compatch p)) (prerequisites self))
      with (@nil Prereq); [reflexivity|].
    symmetry. induction (prerequisites self) as [|p l IH]; [reflexivity|].
    simpl. rewrite (Hall p (or_introl eq_refl)); simpl.
    apply IH. intros q Hq; apply Hall; right; exact Hq.
Qed.

(** The remaster of the scenario asks for [community_patch] 9.0 or later
    while 1.13 is installed: it is not even looked at. *)
Lemma remaster_skips_compatch_prerequisite_witness :
  check_requirements (E := plain_env) Scenario.remaster Scenario.patch_installed
                     [] "" World_init
  = check_requirements (E := plain_env) (without_compatch Scenario.remaster)
                       Scenario.patch_installed [] "" World_init
  /\ fst (check_requirements (E := plain_env) Scenario.remaster
            Scenario.patch_installed [] "" World_init) = Ret (true, []).
Proof.
  pose proof (@remaster_skips_compatch_prerequisite plain_env Scenario.remaster
                Scenario.patch_installed [] "" World_init eq_refl) as H.
  split; [exact (proj1 H)|].
  apply (proj2 (proj2 H)); [|reflexivity].
  intros prereq [<-|[]]; reflexivity.
Defined.

(** ** Forbidden configurations *)

Lemma for_each_stays_false {A} (step : bool -> A -> outcome bool) :
  (forall x r, step false x = Ret r -> r = false) ->
  forall l r, for_each step l false = Ret r -> r = false.
Proof.
  intros Hstep l; induction l as [|x l IH]; simpl; intros r H.
  - congruence.
  - destruct (step false x) as [r0|ex] eqn:Hx; simpl in H; [|discriminate].
    rewrite (Hstep _ _ Hx) in H. now apply IH.
Qed.

Lemma compatch_in_listed (entry_name : yaml) :
  lists_compatch entry_name = true ->
  compatch_in (entry_checked entry_name) = Ret true.
Proof.
  destruct entry_name; simpl; try discriminate.
  - intros ->; reflexivity.
  - now intros ->.
  - now intros ->.
Qed.

Lemma compatch_in_set_listed (entry_name : yaml) (listed : bool) :
  lists_compatch entry_name = true ->
  compatch_in_set (entry_checked entry_name) = Ret listed -> listed = true.
Proof.
  destruct entry_name; simpl; try discriminate.
  - intros ->; simpl; congruence.
  - intros Hl. destruct (existsb unhashable l); [discriminate|]. congruence.
  - intros ->; congruence.
Qed.

Lemma listed_compatch_in (entry_name : yaml) :
  compatch_in (entry_checked entry_name) = Ret true ->
  lists_compatch entry_name = true.
Proof.
  destruct entry_name; simpl; try discriminate; try congruence.
  rewrite orb_false_r; congruence.
Qed.

Lemma listed_compatch_in_set (entry_name : yaml) :
  compatch_in_set (entry_checked entry_name) = Ret true ->
  lists_compatch entry_name = true.
Proof.
  destruct entry_name; simpl; try discriminate; try congruence.
  - rewrite orb_false_r; congruence.
  - destruct (existsb unhashable l); [discriminate|congruence].
Qed.

Lemma validate_dict_is_dict (v : yaml) (sch : scheme) :
  validate_dict v sch = true -> exists d, v = YDict d.
Proof. destruct v; simpl; try discriminate; eauto. Qed.

Lemma ytruthy_not_none (v : yaml) : ytruthy v = true -> is_none v = false.
Proof. destruct v; simpl; congruence. Qed.

(** What a turn of the loop over the prerequisites does to
    [(validated, has_forbidden_prerequisites)]. *)
Lemma prereq_entry_step_spec (validated flag validated' flag' : bool) (entry : yaml) :
  prereq_entry_step (validated, flag) entry = Ret (validated', flag') ->
  (validated = false -> validated' = false)
  /\ (flag = true -> flag' = true)
  /\ (forbidden_prerequisite entry = true -> validated' = false \/ flag' = true)
  /\ (flag = false -> flag' = true -> forbidden_prerequisite entry = true).
Proof.
  unfold prereq_entry_step.
  destruct (validated && validate_dict entry schema_prereqs) eqn:Hv.
  - apply andb_true_iff in Hv as [-> Hdict].
    destruct (validate_dict_is_dict _ _ Hdict) as [d ->]; simpl.
    destruct (compatch_in (entry_checked (yget d "name"))) as [listed|ex] eqn:Hin;
      simpl; [|discriminate].
    intros H; injection H as <- <-.
    split; [discriminate|]. split; [intros ->; reflexivity|]. split.
    + intros Hforbidden; right.
      apply andb_true_iff in Hforbidden as [Hname Hoc].
      rewrite (compatch_in_listed _ Hname) in Hin; injection Hin as <-.
      rewrite Hoc, (ytruthy_not_none _ Hoc). apply orb_true_r.
    + intros -> Hflag; simpl in Hflag.
      apply andb_true_iff in Hflag as [Hflag _].
      apply andb_true_iff in Hflag as [-> Hoc].
      now rewrite (listed_compatch_in _ Hin), Hoc.
  - intros H; injection H as <- <-.
    split; [reflexivity|]. split; [trivial|]. split; [auto|congruence].
Qed.

Lemma incompatible_entry_step_spec (validated flag validated' flag' : bool)
  (entry : yaml) :
  incompatible_entry_step (validated, flag) entry = Ret (validated', flag') ->
  (validated = false -> validated' = false)
  /\ (flag = true -> flag' = true)
  /\ (forbidden_incompatible entry = true -> validated' = false \/ flag' = true)
  /\ (flag = false -> flag' = true -> forbidden_incompatible entry = true).
Proof.
  unfold incompatible_entry_step.
  destruct (validated && validate_dict entry schema_prereqs) eqn:Hv.
  - apply andb_true_iff in Hv as [-> Hdict].
    destruct (validate_dict_is_dict _ _ Hdict) as [d ->]; simpl.
    destruct (compatch_in_set (entry_checked (yget d "name")))
      as [listed|ex] eqn:Hin; simpl; [|discriminate].
    intros H; injection H as <- <-.
    split; [discriminate|]. split; [intros ->; reflexivity|]. split.
    + intros Hforbidden; right.
      rewrite (compatch_in_set_listed _ Hforbidden Hin). apply orb_true_r.
    + intros -> Hflag; simpl in Hflag; subst listed.
      now apply listed_compatch_in_set.
  - intros H; injection H as <- <-.
    split; [reflexivity|]. split; [trivial|]. split; [auto|congruence].
Qed.

(** The same four facts for a whole loop, from the facts for one turn. *)
Lemma entries_loop_spec (step : bool * bool -> yaml -> outcome (bool * bool))
  (forbidden : yaml -> bool) :
  (forall validated flag validated' flag' entry,
      step (validated, flag) entry = Ret (validated', flag') ->
      (validated = false -> validated' = false)
      /\ (flag = true -> flag' = true)
      /\ (forbidden entry = true -> validated' = false \/ flag' = true)
      /\ (flag = false -> flag' = true -> forbidden entry = true)) ->
  forall entries validated flag validated' flag',
    for_each step entries (validated, flag) = Ret (validated', flag') ->
    (validated = false -> validated' = false)
    /\ (flag = true -> flag' = true)
    /\ ((exists entry, In entry entries /\ forbidden entry = true) ->
        validated' = false \/ flag' = true)
    /\ (flag = false -> flag' = true ->
        exists entry, In entry entries /\ forbidden entry = true).
Proof.
  intros Hstep entries; induction entries as [|entry entries IH];
    intros validated flag validated' flag'; simpl.
  - intros H; injection H as <- <-.
    split; [trivial|]. split; [trivial|]. split.
    + intros (entry & [] & _).
    + congruence.
  - destruct (step (validated, flag) entry) as [[v1 f1]|ex] eqn:H1; simpl;
      [|discriminate].
    intros H2.
    destruct (Hstep _ _ _ _ _ H1) as (Hv1 & Hf1 & Hforb1 & Hback1).
    destruct (IH _ _ _ _ H2) as (Hv2 & Hf2 & Hforb2 & Hback2).
    split; [auto|]. split; [auto|]. split.
    + intros (e & [<-|Hin] & He).
      * destruct (Hforb1 He) as [Hv|Hf]; auto.
      * apply Hforb2; eauto.
    + intros Hflag Hflag'.
      destruct f1 eqn:Hf.
      * exists entry; split; [now left|]. now apply Hback1.
      * destruct (Hback2 eq_refl Hflag') as (e & Hin & He).
        exists e; split; [now right|exact He].
Qed.

Lemma validate_prerequisites_part_spec (d : list (string * yaml))
  (validated result : bool) :
  validate_prerequisites_part d validated = Ret result ->
  (validated = false -> result = false)
  /\ (has_forbidden forbidden_prerequisite (yget d "prerequisites") ->
      result = false).
Proof.
  unfold validate_prerequisites_part.
  destruct (is_none (yget d "prerequisites")) eqn:Hnone.
  - intros H; injection H as <-. split; [auto|].
    intros (l & e & Hl & _); rewrite Hl in Hnone; discriminate.
  - destruct (py_iter (yget d "prerequisites")) as [entries|ex] eqn:Hiter; simpl;
      [|discriminate].
    destruct (for_each prereq_entry_step entries (validated, false))
      as [[v' f']|ex] eqn:Hloop; simpl; [|discriminate].
    intros H; injection H as <-.
    destruct (entries_loop_spec prereq_entry_step forbidden_prerequisite
                prereq_entry_step_spec _ _ _ Hloop) as (Hv & _ & Hforb & _).
    split.
    + intros Hf; now rewrite (Hv Hf).
    + intros (l & e & Hl & Hin & He).
      rewrite Hl in Hiter; injection Hiter as <-.
      destruct Hforb as [->| ->]; eauto using andb_false_r.
Qed.

Lemma validate_incompatibles_part_spec (d : list (string * yaml))
  (validated result : bool) :
  validate_incompatibles_part d validated = Ret result ->
  (validated = false -> result = false)
  /\ (has_forbidden forbidden_incompatible (yget d "incompatible") ->
      result = false).
Proof.
  unfold validate_incompatibles_part.
  destruct (is_none (yget d "incompatible")) eqn:Hnone.
  - intros H; injection H as <-. split; [auto|].
    intros (l & e & Hl & _); rewrite Hl in Hnone; discriminate.
  - destruct (py_iter (yget d "incompatible")) as [entries|ex] eqn:Hiter; simpl;
      [|discriminate].
    destruct (for_each incompatible_entry_step entries (validated, false))
      as [[v' f']|ex] eqn:Hloop; simpl; [|discriminate].
    intros H; injection H as <-.
    destruct (entries_loop_spec incompatible_entry_step forbidden_incompatible
                incompatible_entry_step_spec _ _ _ Hloop) as (Hv & _ & Hforb & _).
    split.
    + intros Hf; now rewrite (Hv Hf).
    + intros (l & e & Hl & Hin & He).
      rewrite Hl in Hiter; injection Hiter as <-.
      destruct Hforb as [->| ->]; eauto using andb_false_r.
Qed.

Lemma validate_patcher_options_part_false (d : list (string * yaml)) (result : bool) :
  validate_patcher_options_part d false = Ret result -> result = false.
Proof.
  unfold validate_patcher_options_part.
  destruct (is_none _); [congruence|].
  destruct (validate_dict_constrained _ _); simpl; congruence.
Qed.

Lemma validate_optional_content_part_false (d : list (string * yaml))
  (result : bool) :
  validate_optional_content_part d false = Ret result -> result = false.
Proof.
  unfold validate_optional_content_part.
  destruct (is_none _); [congruence|].
  destruct (validate_list _ _); simpl; congruence.
Qed.

Section DataPart.

Context {E : Env}.

Lemma setting_dir_step_false (mod_path mod_identifier : string)
  (option setting : yaml) (result : bool) :
  setting_dir_step mod_path mod_identifier option false setting = Ret result ->
  result = false.
Proof.
  unfold setting_dir_step.
  destruct (yaml_get option "name"); simpl; [|discriminate].
  destruct (yaml_get setting "name"); simpl; [|discriminate].
  destruct (path_part _); simpl; [|discriminate].
  destruct (path_part _); simpl; [|discriminate].
  congruence.
Qed.

Lemma option_dir_step_false (mod_path mod_identifier : string)
  (option : yaml) (result : bool) :
  option_dir_step mod_path mod_identifier false option = Ret result ->
  result = false.
Proof.
  unfold option_dir_step.
  destruct (yaml_get option "name"); simpl; [|discriminate].
  destruct (path_part _); simpl; [|discriminate].
  destruct (yaml_get option "install_settings"); simpl; [|discriminate].
  destruct (is_none _); [congruence|].
  destruct (py_iter _); simpl; [|discriminate].
  apply for_each_stays_false.
  intros setting r; apply setting_dir_step_false.
Qed.

Lemma validate_data_part_false (d : list (string * yaml)) (mod_path : string)
  (skip_data_validation : bool) (result : bool) :
  validate_data_part d mod_path skip_data_validation false = Ret result ->
  result = false.
Proof.
  unfold validate_data_part.
  destruct (negb skip_data_validation); [|congruence].
  destruct (path_part _); simpl; [|discriminate].
  replace (if negb (ytruthy (yget d "no_base_content")) then false else false)
    with false by (now destruct (negb _)).
  destruct (is_none _); [congruence|].
  destruct (py_iter _); simpl; [|discriminate].
  apply for_each_stays_false.
  intros option r; apply option_dir_step_false.
Qed.

(** A manifest that holds a forbidden prerequisite or a forbidden
    incompatible entry is never accepted: when [validate_install_config]
    returns, it returns [False]. *)
Lemma forbidden_configuration_not_accepted (d : list (string * yaml))
  (mod_config_path : string) (skip_data_validation : bool) :
  has_forbidden forbidden_prerequisite (yget d "prerequisites")
  \/ has_forbidden forbidden_incompatible (yget d "incompatible") ->
  validate_install_config (YDict d) mod_config_path skip_data_validation
  <> Ret true.
Proof.
  intros Hforbidden; unfold validate_install_config.
  destruct (validate_dict (YDict d) schema_fieds_top); [|discriminate].
  destruct (validate_patcher_options_part d true) as [v1|ex]; simpl;
    [|discriminate].
  destruct (validate_prerequisites_part d v1) as [v2|ex] eqn:H2; simpl;
    [|discriminate].
  destruct (validate_incompatibles_part d v2) as [v3|ex] eqn:H3; simpl;
    [|discriminate].
  destruct (validate_prerequisites_part_spec _ _ H2) as [_ Hp].
  destruct (validate_incompatibles_part_spec _ _ H3) as [Hkeep Hi].
  assert (v3 = false) as ->.
  { destruct Hforbidden as [H|H]; [apply Hkeep, Hp, H|apply Hi, H]. }
  destruct (validate_optional_content_part d false) as [v4|ex] eqn:H4; simpl;
    [|discriminate].
  rewrite (validate_optional_content_part_false _ H4).
  intros H5. apply validate_data_part_false in H5. discriminate.
Qed.

End DataPart.

(** ** Manifests whose names are well typed *)

Lemma validated_name (d : list (string * yaml)) :
  validate_dict (YDict d) schema_prereqs = true ->
  is_none (yget d "name") = false
  /\ forall l, yget d "name" = YList l -> existsb unhashable l = false.
Proof.
  unfold validate_dict, schema_prereqs; simpl.
  destruct (yget d "name") as [| | | | |l|]; simpl; try discriminate;
    intros H; (split; [reflexivity|]); intros l' Hl; try discriminate.
  injection Hl as <-.
  apply andb_true_iff in H as [H _].
  apply andb_true_iff in H as [H _].
  induction l as [|x l IH]; simpl in *; [reflexivity|].
  apply andb_true_iff in H as [Hx Hl].
  rewrite (IH Hl), orb_false_r.
  destruct x; simpl in *; try reflexivity; discriminate.
Qed.

Lemma prereq_entry_step_returns (acc : bool * bool) (entry : yaml) :
  name_well_typed entry = true ->
  exists acc', prereq_entry_step acc entry = Ret acc'.
Proof.
  destruct acc as [validated flag]; intros Hname; unfold prereq_entry_step.
  destruct (validated && validate_dict entry schema_prereqs) eqn:Hv; [|eauto].
  apply andb_true_iff in Hv as [_ Hdict].
  destruct (validate_dict_is_dict _ _ Hdict) as [d ->].
  destruct (validated_name _ Hdict) as [Hnone _].
  simpl in *.
  destruct (yget d "name"); simpl in *; try discriminate; eauto.
Qed.

Lemma incompatible_entry_step_returns (acc : bool * bool) (entry : yaml) :
  name_well_typed entry = true ->
  exists acc', incompatible_entry_step acc entry = Ret acc'.
Proof.
  destruct acc as [validated flag]; intros Hname; unfold incompatible_entry_step.
  destruct (validated && validate_dict entry schema_prereqs) eqn:Hv; [|eauto].
  apply andb_true_iff in Hv as [_ Hdict].
  destruct (validate_dict_is_dict _ _ Hdict) as [d ->].
  destruct (validated_name _ Hdict) as [Hnone Hhash].
  simpl in *.
  destruct (yget d "name") as [| | | | |l|]; simpl in *; try discriminate; eauto.
  rewrite (Hhash l eq_refl); simpl; eauto.
Qed.

Lemma for_each_returns {A S} (step : S -> A -> outcome S) (ok : A -> bool) :
  (forall acc x, ok x = true -> exists acc', step acc x = Ret acc') ->
  forall l acc, forallb ok l = true -> exists acc', for_each step l acc = Ret acc'.
Proof.
  intros Hstep l; induction l as [|x l IH]; intros acc Hl; simpl in *; [eauto|].
  apply andb_true_iff in Hl as [Hx Hl].
  destruct (Hstep acc x Hx) as [acc1 ->]; simpl. now apply IH.
Qed.

Lemma top_scheme_fields (d : list (string * yaml)) :
  validate_dict (YDict d) schema_fieds_top = true ->
  (exists s, yget d "name" = YStr s)
  /\ (exists l, yget d "prerequisites" = YList l)
  /\ (yget d "incompatible" = YNone \/ exists l, yget d "incompatible" = YList l)
  /\ (yget d "patcher_options" = YNone
      \/ exists o, yget d "patcher_options" = YDict o).
Proof.
  unfold validate_dict, schema_fieds_top; simpl.
  rewrite !andb_true_iff.
  intros H; decompose [and] H; clear H.
  repeat split.
  - destruct (yget d "name"); simpl in *; try discriminate; eauto.
  - destruct (yget d "prerequisites"); simpl in *; try discriminate; eauto.
  - destruct (yget d "incompatible"); simpl in *; try discriminate; eauto.
  - destruct (yget d "patcher_options"); simpl in *; try discriminate; eauto.
Qed.

Section WellTyped.

Context {E : Env}.

(** On a manifest without optional content whose prerequisite and
    incompatible entries have well-typed names, [validate_install_config]
    returns, and it returns [False] when one of these entries is
    forbidden. *)
Lemma forbidden_configuration_refused (d : list (string * yaml))
  (mod_config_path : string) (skip_data_validation : bool) :
  names_well_typed d "prerequisites" ->
  names_well_typed d "incompatible" ->
  yget d "optional_content" = YNone ->
  (exists result,
      validate_install_config (YDict d) mod_config_path skip_data_validation
      = Ret result)
  /\ (has_forbidden forbidden_prerequisite (yget d "prerequisites")
      \/ has_forbidden forbidden_incompatible (yget d "incompatible") ->
      validate_install_config (YDict d) mod_config_path skip_data_validation
      = Ret false).
Proof.
  intros Hprereqs Hincomps Hoptions.
  assert (Hreturns : exists result,
             validate_install_config (YDict d) mod_config_path
                                     skip_data_validation = Ret result).
  { unfold validate_install_config.
    destruct (validate_dict (YDict d) schema_fieds_top) eqn:Htop; [|eauto].
    destruct (top_scheme_fields _ Htop)
      as ([mod_name Hn] & [prereqs Hp] & Hi & Ho).
    assert (H1 : exists v1, validate_patcher_options_part d true = Ret v1).
    { unfold validate_patcher_options_part.
      destruct Ho as [-> | [o ->]]; simpl; eauto. }
    destruct H1 as [v1 ->]; simpl.
    assert (H2 : exists v2, validate_prerequisites_part d v1 = Ret v2).
    { unfold validate_prerequisites_part. rewrite Hp; simpl.
      destruct (for_each_returns prereq_entry_step name_well_typed
                  prereq_entry_step_returns prereqs (v1, false)
                  (Hprereqs _ Hp)) as [[v f] ->]; simpl; eauto. }
    destruct H2 as [v2 ->]; simpl.
    assert (H3 : exists v3, validate_incompatibles_part d v2 = Ret v3).
    { unfold validate_incompatibles_part.
      destruct Hi as [-> | [incomps Hi]]; simpl; [eauto|].
      rewrite Hi; simpl.
      destruct (for_each_returns incompatible_entry_step name_well_typed
                  incompatible_entry_step_returns incomps (v2, false)
                  (Hincomps _ Hi)) as [[v f] ->]; simpl; eauto. }
    destruct H3 as [v3 ->]; simpl.
    unfold validate_optional_content_part, validate_data_part.
    rewrite Hoptions, Hn; simpl.
    destruct (negb skip_data_validation); simpl; eauto. }
  split; [exact Hreturns|].
  intros Hforbidden. destruct Hreturns as [[|] Hresult]; [|exact Hresult].
  exfalso.
  exact (@forbidden_configuration_not_accepted E d mod_config_path
           skip_data_validation Hforbidden Hresult).
Qed.

End WellTyped.

(** Conversely the two flags are raised by such entries only. *)
Lemma forbidden_flags_need_an_entry (entries : list yaml)
  (validated validated' flag' : bool) :
  (for_each prereq_entry_step entries (validated, false) = Ret (validated', flag') ->
   flag' = true ->
   exists entry, In entry entries /\ forbidden_prerequisite entry = true)
  /\ (for_each incompatible_entry_step entries (validated, false)
      = Ret (validated', flag') ->
      flag' = true ->
      exists entry, In entry entries /\ forbidden_incompatible entry = true).
Proof.
  split; intros Hloop Hflag.
  - now apply (entries_loop_spec prereq_entry_step forbidden_prerequisite
                 prereq_entry_step_spec _ _ _ Hloop).
  - now apply (entries_loop_spec incompatible_entry_step forbidden_incompatible
                 incompatible_entry_step_spec _ _ _ Hloop).
Qed.

(** The two configurations of the specification are refused, and a manifest
    without prerequisites passes. *)
Example forbidden_configurations_refused :
  validate_install_config (E := plain_env)
    (Scenario.manifest [Scenario.compatch_with_option] [])
    "mods/alpha/manifest.yaml" false = Ret false
  /\ validate_install_config (E := plain_env)
       (Scenario.manifest [] [YDict [("name", YStr "community_patch")]])
       "mods/alpha/manifest.yaml" false = Ret false
  /\ validate_install_config (E := plain_env) (Scenario.manifest [] [])
       "mods/alpha/manifest.yaml" false = Ret true.
Proof. repeat split; reflexivity. Qed.

(** C7: a manifest may hold the forbidden prerequisite and still not be
    answered with [False]. A prerequisite named [2077] passes the scheme
    (a value that is not a list is not checked when the scheme lists a
    parameterised class), and ["community_patch" in 2077] raises
    [TypeError], before or after the forbidden entry is met. Optional
    content given as a list of names passes [validate_list] (only
    dictionaries are looked at), and the directory checks then call [get] on
    a [str]: [AttributeError]. *)
Theorem forbidden_prerequisite_not_answered (E : Env) (mod_config_path : string)
  (skip_data_validation : bool) :
  validate_dict Scenario.numbered_name schema_prereqs = true
  /\ forbidden_prerequisite Scenario.compatch_with_option = true
  /\ validate_install_config
       (Scenario.manifest [Scenario.numbered_name; Scenario.compatch_with_option] [])
       mod_config_path skip_data_validation = Raise TypeError
  /\ validate_install_config
       (Scenario.manifest [Scenario.compatch_with_option; Scenario.numbered_name] [])
       mod_config_path skip_data_validation = Raise TypeError
  /\ validate_install_config
       (Scenario.manifest_with_options [Scenario.compatch_with_option] []
                                       [YStr "hd"])
       mod_config_path false = Raise AttributeError.
Proof. repeat split; reflexivity. Qed.

(** * Further properties of the code *)

(** ** Parsing and printing versions *)

Lemma take_app_exact (a b : string) : Py.take (String.length a) (a ++ b) = a.
Proof. induction a as [|c a IH]; simpl; [now destruct b|now rewrite IH]. Qed.

Lemma take_short (n : nat) (a : string) :
  (String.length a <= n)%nat -> Py.take n a = a.
Proof.
  revert n; induction a as [|c a IH]; intros [|n] H; simpl in *;
    try reflexivity; try lia.
  rewrite IH; [reflexivity|lia].
Qed.

Lemma drop_app_exact (a b : string) : Py.drop (String.length a) (a ++ b) = b.
Proof. induction a as [|c a IH]; simpl; [reflexivity|exact IH]. Qed.

Lemma find_app_absent (c : ascii) (a b : string) :
  Py.contains c a = false ->
  Py.find c (a ++ b) = option_map (Nat.add (String.length a)) (Py.find c b).
Proof.
  unfold Py.contains.
  induction a as [|d a IH]; simpl.
  - intros _. now destruct (Py.find c b).
  - destruct (Ascii.eqb d c); [discriminate|].
    destruct (Py.find c a) eqn:Ha; simpl; [discriminate|].
    intros _. rewrite (IH eq_refl). now destruct (Py.find c b).
Qed.

Lemma contains_app (c : ascii) (a b : string) :
  Py.contains c (a ++ b) = Py.contains c a || Py.contains c b.
Proof.
  unfold Py.contains.
  induction a as [|d a IH]; simpl; [reflexivity|].
  destruct (Ascii.eqb d c); [reflexivity|].
  destruct (Py.find c (a ++ b)), (Py.find c a), (Py.find c b);
    simpl in *; congruence.
Qed.

Lemma split_clean (c : ascii) (a : string) :
  Py.contains c a = false -> Py.split c a = [a].
Proof.
  unfold Py.contains.
  induction a as [|d a IH]; simpl; [reflexivity|].
  destruct (Ascii.eqb d c); [discriminate|].
  destruct (Py.find c a); simpl; [discriminate|].
  intros _. now rewrite (IH eq_refl).
Qed.

Lemma split_app (c : ascii) (a rest : string) :
  Py.contains c a = false ->
  Py.split c (a ++ String c rest) = a :: Py.split c rest.
Proof.
  unfold Py.contains.
  induction a as [|d a IH]; simpl.
  - intros _. now rewrite Ascii.eqb_refl.
  - destruct (Ascii.eqb d c); [discriminate|].
    destruct (Py.find c a); simpl; [discriminate|].
    intros _. now rewrite (IH eq_refl).
Qed.

Lemma drop_past_separator (a b : string) (c : ascii) :
  Py.drop (String.length a + 0 + 1) (a ++ String c b) = b.
Proof.
  rewrite Nat.add_0_r, Nat.add_1_r.
  induction a as [|d a IH]; simpl; [reflexivity|exact IH].
Qed.

Lemma clean_component_spec (bound : nat) (s : string) :
  clean_component bound s = true ->
  Py.contains "."%char s = false /\ Py.contains "-"%char s = false
  /\ (String.length s <= bound)%nat.
Proof.
  unfold clean_component; rewrite !andb_true_iff, !negb_true_iff, Nat.leb_le.
  tauto.
Qed.

(** Printing a well-formed version and parsing the text gives the version
    back, whatever its identifier. *)
Theorem Version_init_str (v : Version) :
  well_formed_version v = true -> Version_init (Version_str v) = v.
Proof.
  destruct v as [M m p ident]; unfold well_formed_version; simpl.
  rewrite !andb_true_iff; intros [[HM Hm] Hp].
  apply clean_component_spec in HM as (HMdot & HMdash & HMlen).
  apply clean_component_spec in Hm as (Hmdot & Hmdash & Hmlen).
  apply clean_component_spec in Hp as (Hpdot & Hpdash & Hplen).
  set (body := M ++ "." ++ m ++ "." ++ p).
  assert (Hdash : Py.contains "-"%char body = false).
  { unfold body. rewrite !contains_app, HMdash, Hmdash, Hpdash. reflexivity. }
  assert (Hdot : Py.contains "."%char body = true).
  { unfold body. rewrite !contains_app. simpl. apply orb_true_r. }
  assert (Hsplit : Py.split "."%char body = [M; m; p]).
  { unfold body.
    change (M ++ "." ++ m ++ "." ++ p)
      with (M ++ String "."%char (m ++ String "."%char p)).
    rewrite (@split_app "."%char M _ HMdot), (@split_app "."%char m _ Hmdot),
      (@split_clean "."%char p Hpdot).
    reflexivity. }
  unfold Version_str; cbn [major minor patch identifier].
  destruct ident as [|c ident].
  - change (M ++ "." ++ m ++ "." ++ p) with body.
    unfold Version_init.
    assert (Hfind : Py.find "-"%char body = None).
    { unfold Py.contains in Hdash. now destruct (Py.find "-"%char body). }
    rewrite Hfind, Hdot, Hsplit; cbn -[Py.take].
    now rewrite !take_short.
  - change (M ++ "." ++ m ++ "." ++ p) with body.
    unfold Version_init.
    change (body ++ "-" ++ String c ident)
      with (body ++ String "-"%char (String c ident)).
    rewrite (@find_app_absent "-"%char body _ Hdash); simpl Py.find.
    simpl option_map.
    rewrite contains_app, Hdot; simpl orb.
    rewrite drop_past_separator.
    rewrite Nat.add_0_r, take_app_exact, Hsplit; cbn -[Py.take].
    now rewrite !take_short.
Qed.

Lemma Version_init_str_witness :
  Version_init (Version_str (MkVersion "1" "14" "230118" "rc-2.1"))
  = MkVersion "1" "14" "230118" "rc-2.1".
Proof.
  apply (@Version_init_str (MkVersion "1" "14" "230118" "rc-2.1")).
  reflexivity.
Defined.

(** ** The order on numeric versions *)

Lemma triple_ltb_true (x y : Z * Z * Z) :
  triple_ltb Z.eqb Z.ltb x y = true <-> triple_lt x y.
Proof.
  destruct x as [[x1 x2] x3], y as [[y1 y2] y3]; unfold triple_ltb, triple_lt.
  destruct (Z.eqb_spec x1 y1); destruct (Z.eqb_spec x2 y2); cbn [negb];
    rewrite Z.ltb_lt; lia.
Qed.

Lemma triple_ltb_false (x y : Z * Z * Z) :
  triple_ltb Z.eqb Z.ltb x y = false <-> ~ triple_lt x y.
Proof.
  rewrite <- triple_ltb_true.
  destruct (triple_ltb Z.eqb Z.ltb x y); split; congruence.
Qed.

Lemma triple_eqb_false (x y : Z * Z * Z) :
  triple_eqb Z.eqb x y = false <-> x <> y.
Proof.
  rewrite <- triple_eqb_Z_spec.
  destruct (triple_eqb Z.eqb x y); split; congruence.
Qed.

Ltac triples_to_props :=
  repeat match goal with
         | H : triple_ltb Z.eqb Z.ltb _ _ = true |- _ =>
             apply triple_ltb_true in H
         | H : triple_ltb Z.eqb Z.ltb _ _ = false |- _ =>
             apply triple_ltb_false in H
         | H : triple_eqb Z.eqb _ _ = true |- _ =>
             apply triple_eqb_Z_spec in H
         | H : triple_eqb Z.eqb _ _ = false |- _ =>
             apply triple_eqb_false in H
         end.

Ltac triple_cases :=
  repeat match goal with
         | |- context [triple_ltb Z.eqb Z.ltb ?x ?y] =>
             let H := fresh "Hlt" in
             destruct (triple_ltb Z.eqb Z.ltb x y) eqn:H
         | |- context [triple_eqb Z.eqb ?x ?y] =>
             let H := fresh "Heq" in
             destruct (triple_eqb Z.eqb x y) eqn:H
         end.

Lemma triple_eq_components (x1 x2 x3 y1 y2 y3 : Z) :
  (x1, x2, x3) = (y1, y2, y3) <-> x1 = y1 /\ x2 = y2 /\ x3 = y3.
Proof.
  split; [intros H; injection H; auto|intros (-> & -> & ->); reflexivity].
Qed.

Ltac triple_arith :=
  triples_to_props;
  repeat match goal with
         | x : (Z * Z * Z)%type |- _ => destruct x as [[? ?] ?]
         end;
  unfold triple_lt in *;
  rewrite ?triple_eq_components in *;
  lia.




(** A lower bound met by a version is met by every later version, and an
    upper bound met by a version is met by every earlier one (all three
    versions numeric). *)
Theorem numeric_constraints_are_monotone (v1 v2 required : Version) :
  is_numeric v1 = true -> is_numeric v2 = true -> is_numeric required = true ->
  Version_lt v1 v2 = Ret true ->
  (forall o, is_lower_bound o = true ->
             apply_op o v1 required = Ret true ->
             apply_op o v2 required = Ret true)
  /\ (forall o, is_upper_bound o = true ->
                apply_op o v2 required = Ret true ->
                apply_op o v1 required = Ret true).
Proof.
  intros H1 H2 Hr.
  unfold apply_op, Version_gt, Version_le, Version_ge, Version_ne, Version_lt,
    Version_eq.
  rewrite H1, H2, Hr; cbn [andb obind].
  generalize (int_triple v1) (int_triple v2) (int_triple required).
  intros x1 x2 r Hlt. injection Hlt as Hlt.
  split; intros [] Ho; try discriminate Ho; clear Ho;
    triple_cases; cbn [negb andb orb]; intros H; try reflexivity;
    try discriminate H; clear H; exfalso; triple_arith.
Qed.

Lemma numeric_constraints_are_monotone_witness :
  apply_op op_ge (Version_init "2.4") (Version_init "2.0") = Ret true.
Proof.
  exact (proj1 (@numeric_constraints_are_monotone (Version_init "2.3.1")
                  (Version_init "2.4") (Version_init "2.0")
                  eq_refl eq_refl eq_refl eq_refl) op_ge eq_refl eq_refl).
Defined.

(** ** Verdicts and messages of the resolver *)

Lemma yields_mret {A} (Q : A -> Prop) (a : A) : Q a -> yields Q (mret a).
Proof. intros H w a' Ha; injection Ha as <-; exact H. Qed.

Lemma yields_lift {A} (Q : A -> Prop) (c : outcome A) :
  (forall a, c = Ret a -> Q a) -> yields Q (lift c).
Proof. intros H w a Ha; apply H; exact Ha. Qed.

Lemma yields_any {A} (c : M A) : yields (fun _ => True) c.
Proof. intros w a _; exact I. Qed.

Lemma yields_mbind {A B} (P : A -> Prop) (Q : B -> Prop) (c : M A)
  (k : A -> M B) :
  yields P c -> (forall a, P a -> yields Q (k a)) -> yields Q (mbind c k).
Proof.
  intros Hc Hk w b; unfold mbind.
  pose proof (Hc w) as Hw.
  destruct (c w) as [[a|ex] w']; simpl in *; [|discriminate].
  apply Hk, Hw; reflexivity.
Qed.

Lemma append_not_nil {A} (l : list A) (x : A) : append l x <> [].
Proof. unfold append; destruct l; discriminate. Qed.

Section RequirementMessages.

Context {E : Env}.
Variable existing_content : dict InstalledEntry.
Variable required_mod_name : option string.
Variable name_label : string.

Lemma requirement_option_step_messages (ok ok' : bool) (msgs msgs' : list string)
  (option : string) :
  requirement_option_step existing_content required_mod_name name_label
                          (ok, msgs) option = Ret (ok', msgs') ->
  (ok' = ok /\ msgs' = msgs) \/ (ok' = false /\ msgs' <> []).
Proof.
  unfold requirement_option_step.
  destruct (installed_item existing_content required_mod_name) as [m|ex];
    simpl; [|discriminate].
  destruct (match dict_get m option with
            | Some v => (v =? "skip")%string
            | None => true
            end); intros H; injection H as <- <-.
  - right; split; [reflexivity|apply append_not_nil].
  - left; split; reflexivity.
Qed.

Lemma requirement_options_messages (options : list string) (ok ok' : bool)
  (msgs msgs' : list string) :
  for_each (requirement_option_step existing_content required_mod_name
                                    name_label) options (ok, msgs)
  = Ret (ok', msgs') ->
  (ok' = ok /\ msgs' = msgs) \/ (ok' = false /\ msgs' <> []).
Proof.
  revert ok msgs; induction options as [|o options IH]; intros ok msgs; simpl.
  - intros H; injection H as <- <-; left; split; reflexivity.
  - destruct (requirement_option_step existing_content required_mod_name
                name_label (ok, msgs) o) as [[ok1 msgs1]|ex] eqn:Hstep; simpl;
      [|discriminate].
    intros Hrest.
    destruct (requirement_option_step_messages _ _ _ Hstep) as [[-> ->]|[-> Hne]].
    + apply IH; exact Hrest.
    + right. destruct (IH _ _ Hrest) as [[-> ->]|[-> Hne']]; split; trivial.
Qed.

End RequirementMessages.

Lemma check_requirement_messages (E : Env) (self : Mod)
  (prereq : Prereq) (existing_content : dict InstalledEntry)
  (existing_content_descriptions : dict string) (is_compatch_env : bool) :
  yields (fun r => fst (fst r) = true <-> snd (fst r) = [])
         (check_requirement self prereq existing_content
                            existing_content_descriptions is_compatch_env).
Proof.
  unfold check_requirement.
  set (compatch_only := compatch_on_comrem self prereq existing_content).
  set (required := last_installed (prereq_name prereq) existing_content).
  apply yields_mbind with (P := fun _ => True); [apply yields_any|].
  intros [labels technical] _.
  apply yields_mbind with (P := fun _ => True); [apply yields_any|].
  intros version_validated _.
  set (name_validated :=
         if compatch_only then false
         else match required with Some _ => true | None => false end).
  set (error_msg0 :=
         if compatch_only
         then append [] (tr "compatch_mod_incompatible_with_comrem" [])
         else []).
  apply yields_mbind
    with (P := fun r : bool * list string =>
                 (fst r = true /\ snd r = error_msg0)
                 \/ (fst r = false /\ snd r <> [])).
  { assert (Hkeep : yields (fun r : bool * list string =>
                              (fst r = true /\ snd r = error_msg0)
                              \/ (fst r = false /\ snd r <> []))
                      (mret (true, error_msg0)))
      by (apply yields_mret; left; split; reflexivity).
    destruct (prereq_optional_content prereq) as [[|o oc]|]; try exact Hkeep.
    destruct (name_validated && version_validated); try exact Hkeep.
    apply yields_lift. intros [ok msgs] Hloop.
    destruct (requirement_options_messages _ _ _ _ _ _ Hloop)
      as [[-> ->]|[-> Hne]]; [left|right]; split; trivial. }
  intros [optional_content_validated msgs] Hoptions; simpl in Hoptions.
  destruct (name_validated && version_validated && optional_content_validated)
    eqn:Hvalidated.
  - apply yields_mbind with (P := fun m => m = []).
    + simpl. apply yields_mret.
      apply andb_true_iff in Hvalidated as [Hnv ->].
      apply andb_true_iff in Hnv as [Hnv _].
      destruct Hoptions as [[_ ->]|[Hf _]]; [|discriminate].
      unfold error_msg0. unfold name_validated in Hnv.
      destruct compatch_only; [discriminate|reflexivity].
    + intros m ->. apply yields_mret; simpl; split; reflexivity.
  - apply yields_mbind with (P := fun m : list string => m <> []).
    + cbn [negb].
      repeat first
        [ apply yields_mret
        | apply yields_mbind with (P := fun _ => True); [apply yields_any|intros ? _]
        | match goal with
          | |- yields _ (match ?x with _ => _ end) => destruct x
          | |- yields _ (if ?b then _ else _) => destruct b
          | |- (if ?b then _ else _) <> [] => destruct b
          | |- append _ _ <> [] => apply append_not_nil
          end ].
    + intros m Hm. apply yields_mret; simpl; split; [discriminate|].
      intros ->; contradiction.
Qed.

(** The messages of [check_requirement] tell its verdict: a validated
    prerequisite comes with no message, a prerequisite that is not
    validated with at least one. *)
Theorem check_requirement_validated_iff_silent (E : Env) (self : Mod)
  (prereq : Prereq) (existing_content : dict InstalledEntry)
  (existing_content_descriptions : dict string) (is_compatch_env : bool)
  (w w' : World) (validated : bool) (error_msg : list string)
  (labelled : Prereq) :
  check_requirement self prereq existing_content existing_content_descriptions
                    is_compatch_env w
  = (Ret (validated, error_msg, labelled), w') ->
  validated = true <-> error_msg = [].
Proof.
  intros Hrun.
  apply (@check_requirement_messages E self prereq existing_content
           existing_content_descriptions is_compatch_env w
           (validated, error_msg, labelled)).
  now rewrite Hrun.
Qed.

Lemma check_requirement_validated_iff_silent_witness :
  false = true
  <-> [nl ++ "required_base:"; "Mod_name: Beta, of_version: >=3.0"] = [].
Proof.
  apply (@check_requirement_validated_iff_silent plain_env
           (Scenario.simple_mod "alpha" "1.0.0" "1" [])
           (Scenario.requires_beta [">=3.0"]) Scenario.beta_installed []
           false World_init (MkWorld "mixed" "mixed" [] [] [])
           false
           [nl ++ "required_base:"; "Mod_name: Beta, of_version: >=3.0"]
           (set_name_label (Scenario.requires_beta [">=3.0"]) "Beta")).
  reflexivity.
Defined.

(** ** A prerequisite that is not installed *)






(** ** The record kept by [check_requirements] *)

Lemma preserves_mret {X A} (f : World -> X) (a : A) : preserves f (mret a).
Proof. intros w; reflexivity. Qed.

Lemma preserves_lift {X A} (f : World -> X) (c : outcome A) :
  preserves f (lift c).
Proof. intros w; reflexivity. Qed.

Lemma preserves_mbind {X A B} (f : World -> X) (c : M A) (k : A -> M B) :
  preserves f c -> (forall a, preserves f (k a)) -> preserves f (mbind c k).
Proof.
  intros Hc Hk w; unfold mbind.
  pose proof (Hc w) as Hw.
  destruct (c w) as [[a|ex] w']; simpl in *; [|exact Hw].
  rewrite (Hk a w'). exact Hw.
Qed.

Lemma preserves_for_eachM {X A S} (f : World -> X) (body : S -> A -> M S)
  (l : list A) (acc : S) :
  (forall acc x, preserves f (body acc x)) -> preserves f (for_eachM body l acc).
Proof.
  intros Hbody; revert acc; induction l as [|x l IH]; intros acc; simpl.
  - apply preserves_mret.
  - apply preserves_mbind; [apply Hbody|exact IH].
Qed.

Ltac preserves_step :=
  first
    [ apply preserves_lift
    | apply preserves_mret
    | apply preserves_mbind; [|intros ?]
    | match goal with
      | |- preserves _ (match ?x with _ => _ end) => destruct x
      | |- preserves _ (if ?b then _ else _) => destruct b
      | |- preserves _ (set_requirements_style _) => intros ?; reflexivity
      | |- preserves _ (set_incompatibles_style _) => intros ?; reflexivity
      end ].

Lemma check_requirement_preserves_copied (E : Env) (self : Mod)
  (prereq : Prereq) (existing_content : dict InstalledEntry)
  (existing_content_descriptions : dict string) (is_compatch_env : bool) :
  preserves copied
    (check_requirement self prereq existing_content
                       existing_content_descriptions is_compatch_env).
Proof. unfold check_requirement; repeat preserves_step. Qed.

Section RequirementsRecord.

Context {E : Env}.
Variable self : Mod.
Variable existing_content : dict InstalledEntry.
Variable existing_content_descriptions : dict string.
Variable is_compatch_env : bool.

Lemma skipped_for_remaster_examined (prereq : Prereq) (skip : bool) :
  skipped_for_remaster self prereq = Ret skip ->
  examined self prereq = negb skip.
Proof.
  unfold skipped_for_remaster, examined, first_is_compatch.
  destruct (name self =? "community_remaster")%string; simpl.
  - destruct (prereq_name prereq); [discriminate|].
    intros H; injection H as <-; reflexivity.
  - intros H; injection H as <-; reflexivity.
Qed.

Lemma requirements_step_record (acc acc' : bool * list string) (prereq : Prereq)
  (w w' : World) :
  check_requirements_step self existing_content existing_content_descriptions
                          is_compatch_env acc prereq w = (Ret acc', w') ->
  exists entries, loop_record self [prereq] acc acc' w w' entries.
Proof.
  unfold check_requirements_step, loop_record.
  rewrite mbind_run; unfold lift at 1.
  destruct (skipped_for_remaster self prereq) as [skip|ex] eqn:Hskip;
    [|discriminate].
  simpl filter. rewrite (skipped_for_remaster_examined _ Hskip).
  destruct skip; simpl.
  - intros H; injection H as <- <-. exists []; simpl.
    rewrite !app_nil_r, andb_true_r. repeat split; constructor.
  - rewrite mbind_run.
    destruct (@check_requirement_respects E self prereq existing_content
                existing_content_descriptions is_compatch_env w)
      as [Hstatus Hname].
    pose proof (@check_requirement_preserves_copied E self prereq
                  existing_content existing_content_descriptions
                  is_compatch_env w) as Hcopied.
    pose proof (@check_requirement_messages E self prereq existing_content
                  existing_content_descriptions is_compatch_env w) as Hmsgs.
    destruct (check_requirement self prereq existing_content
                existing_content_descriptions is_compatch_env w)
      as [[[[validated msgs] prereq']|ex] w1]; simpl in *; [|discriminate].
    specialize (Hname _ eq_refl). specialize (Hmsgs _ eq_refl).
    simpl in Hname, Hmsgs.
    unfold mbind, append_require_status, set_individual_require_status,
      modify, mret; simpl.
    intros H; injection H as <- <-; simpl.
    exists [(prereq', validated, msgs)]; simpl.
    unfold status_names, status_verdict, status_messages; simpl.
    rewrite Hstatus, Hname, andb_true_r, app_nil_r.
    split; [reflexivity|]. split; [reflexivity|]. split; [reflexivity|].
    split; [destruct msgs; [now rewrite app_nil_r|reflexivity]|].
    split; [constructor; [exact Hmsgs|constructor]|exact Hcopied].
Qed.

Lemma requirements_loop_record (l : list Prereq) (acc acc' : bool * list string)
  (w w' : World) :
  for_eachM (check_requirements_step self existing_content
               existing_content_descriptions is_compatch_env) l acc w
  = (Ret acc', w') ->
  exists entries, loop_record self l acc acc' w w' entries.
Proof.
  revert acc w; induction l as [|p l IH]; intros acc w; simpl.
  - unfold mret; intros H; injection H as <- <-. exists []; unfold loop_record.
    simpl. rewrite !app_nil_r, andb_true_r. repeat split; constructor.
  - rewrite mbind_run.
    destruct (check_requirements_step self existing_content
                existing_content_descriptions is_compatch_env acc p w)
      as [[acc1|ex] w1] eqn:Hstep; [|discriminate].
    intros Hrest.
    destruct (requirements_step_record _ _ _ Hstep)
      as (e1 & Hs1 & Hn1 & Hv1 & Hm1 & Hf1 & Hc1).
    destruct (IH _ _ Hrest) as (e2 & Hs2 & Hn2 & Hv2 & Hm2 & Hf2 & Hc2).
    exists (e1 ++ e2)%list; unfold loop_record.
    rewrite Hs2, Hs1, Hv2, Hv1, Hm2, Hm1, Hc2, Hc1.
    rewrite !map_app, concat_app, forallb_app, Hn1, Hn2, <- !app_assoc,
      andb_assoc.
    change (filter (examined self) (p :: l))
      with (filter (examined self) ([p] ++ l)%list).
    rewrite filter_app, map_app.
    repeat split; trivial.
    apply Forall_app; split; assumption.
Qed.

End RequirementsRecord.

Lemma check_requirements_loop (E : Env) (self : Mod)
  (existing_content : dict InstalledEntry)
  (existing_content_descriptions : dict string) (patcher_version : string)
  (w w' : World) (requirements_met : bool) (error_msg : list string) :
  check_requirements self existing_content existing_content_descriptions
                     patcher_version w = (Ret (requirements_met, error_msg), w') ->
  exists acc,
    loop_record self (prerequisites self) (true, []) acc
      (MkWorld (requirements_style w) (incompatibles_style w) []
               (individual_incomp_status w) (copied w)) w'
      (individual_require_status w')
    /\ requirements_met = fst acc
    /\ error_msg = match snd acc with
                   | [] => []
                   | _ => append (snd acc) (nl ++ tr "check_for_a_new_version" [])
                   end.
Proof.
  unfold check_requirements.
  rewrite mbind_run.
  set (tool := match patcher_version with
               | EmptyString => mret tt
               | _ => mbind (lift (compatible_with_mod_manager self patcher_version))
                            (fun _ => mret tt)
               end).
  assert (Htool : forall w0, snd (tool w0) = w0).
  { intros w0; unfold tool. destruct patcher_version; [reflexivity|].
    unfold mbind, lift.
    destruct (compatible_with_mod_manager self _); reflexivity. }
  specialize (Htool w).
  destruct (tool w) as [[[]|ex] w1]; simpl in Htool; subst w1; [|discriminate].
  rewrite mbind_run. simpl.
  rewrite mbind_run.
  set (w0 := MkWorld (requirements_style w) (incompatibles_style w) []
                     (individual_incomp_status w) (copied w)).
  destruct (for_eachM
              (check_requirements_step self existing_content
                 existing_content_descriptions
                 (negb (dict_has existing_content "community_remaster")
                  && dict_has existing_content "community_patch"))
              (prerequisites self) (true, []) w0)
    as [[[met msgs]|ex] w1] eqn:Hloop; [|discriminate].
  unfold mret. intros Hrun; injection Hrun as <- <- <-.
  destruct (requirements_loop_record _ _ _ _ _ _ _ Hloop) as (entries & Hrec).
  exists (met, msgs). split; [|split; [reflexivity|destruct msgs; reflexivity]].
  pose proof Hrec as (Hs & _). simpl in Hs. rewrite Hs. exact Hrec.
Qed.

(** [check_requirements] keeps one status entry per examined prerequisite,
    in the order of the manifest (whatever the list held before); the
    overall verdict is the conjunction of the recorded verdicts, and the
    messages are the recorded messages in order, closed by the line "check
    for a new version" when there is any. *)
Theorem check_requirements_record (E : Env) (self : Mod)
  (existing_content : dict InstalledEntry)
  (existing_content_descriptions : dict string) (patcher_version : string)
  (w w' : World) (requirements_met : bool) (error_msg : list string) :
  check_requirements self existing_content existing_content_descriptions
                     patcher_version w = (Ret (requirements_met, error_msg), w') ->
  map status_names (individual_require_status w')
  = map prereq_name (examined_prerequisites self)
  /\ requirements_met = forallb status_verdict (individual_require_status w')
  /\ error_msg
     = match concat (map status_messages (individual_require_status w')) with
       | [] => []
       | msgs => append msgs (nl ++ tr "check_for_a_new_version" [])
       end.
Proof.
  intros Hrun.
  destruct (@check_requirements_loop _ _ _ _ _ _ _ _ _ Hrun)
    as ([met msgs] & (_ & Hn & Hv & Hm & _ & _) & -> & ->).
  simpl in *. subst met msgs.
  split; [exact Hn|]. split; [reflexivity|].
  destruct (concat (map status_messages (individual_require_status w')));
    reflexivity.
Qed.

Lemma check_requirements_record_witness :
  map status_names [(set_name_label (Scenario.requires_beta [">=3.0"]) "Beta",
                     false,
                     [nl ++ "required_base:";
                      "Mod_name: Beta, of_version: >=3.0"])]
  = map prereq_name
        (examined_prerequisites
           (Scenario.simple_mod "alpha" "1.0.0" "1"
              [Scenario.requires_beta [">=3.0"]]))
  /\ false = forallb status_verdict
               [(set_name_label (Scenario.requires_beta [">=3.0"]) "Beta",
                 false,
                 [nl ++ "required_base:";
                  "Mod_name: Beta, of_version: >=3.0"])]
  /\ [nl ++ "required_base:"; "Mod_name: Beta, of_version: >=3.0";
      nl ++ "check_for_a_new_version"]
     = match concat (map status_messages
                       [(set_name_label (Scenario.requires_beta [">=3.0"]) "Beta",
                         false,
                         [nl ++ "required_base:";
                          "Mod_name: Beta, of_version: >=3.0"])]) with
       | [] => []
       | msgs => append msgs (nl ++ tr "check_for_a_new_version" [])
       end.
Proof.
  apply (@check_requirements_record plain_env
           (Scenario.simple_mod "alpha" "1.0.0" "1"
              [Scenario.requires_beta [">=3.0"]])
           Scenario.beta_installed [] "1.14" World_init
           (MkWorld "mixed" "mixed"
              [(set_name_label (Scenario.requires_beta [">=3.0"]) "Beta",
                false,
                [nl ++ "required_base:";
                 "Mod_name: Beta, of_version: >=3.0"])] [] [])
           false
           [nl ++ "required_base:"; "Mod_name: Beta, of_version: >=3.0";
            nl ++ "check_for_a_new_version"]).
  reflexivity.
Defined.

Lemma verdicts_and_messages (entries : list status_entry) :
  Forall (fun e => status_verdict e = true <-> status_messages e = []) entries ->
  forallb status_verdict entries = true
  <-> concat (map status_messages entries) = [].
Proof.
  induction 1 as [|e entries He _ IH]; simpl; [tauto|].
  rewrite andb_true_iff, IH, He.
  split.
  - intros [-> ->]; reflexivity.
  - intros H; apply app_eq_nil in H; exact H.
Qed.

(** The requirements are met exactly when [check_requirements] has no
    message to show. *)
Theorem check_requirements_met_iff_silent (E : Env) (self : Mod)
  (existing_content : dict InstalledEntry)
  (existing_content_descriptions : dict string) (patcher_version : string)
  (w w' : World) (requirements_met : bool) (error_msg : list string) :
  check_requirements self existing_content existing_content_descriptions
                     patcher_version w = (Ret (requirements_met, error_msg), w') ->
  requirements_met = true <-> error_msg = [].
Proof.
  intros Hrun.
  destruct (@check_requirements_loop _ _ _ _ _ _ _ _ _ Hrun)
    as ([met msgs] & (_ & _ & Hv & Hm & Hf & _) & -> & ->).
  simpl in *. subst met msgs.
  rewrite (verdicts_and_messages Hf).
  destruct (concat (map status_messages (individual_require_status w'))).
  - tauto.
  - split; [discriminate|]. intros H; exfalso; revert H; apply append_not_nil.
Qed.

Lemma check_requirements_met_iff_silent_witness :
  true = true <-> ([] : list string) = [].
Proof.
  apply (@check_requirements_met_iff_silent plain_env
           (Scenario.simple_mod "alpha" "1.0.0" "1"
              [Scenario.requires_beta [">=2.0"; "<3.0"]])
           Scenario.beta_installed [] "" World_init
           (MkWorld "range" "mixed"
              [(set_name_label (Scenario.requires_beta [">=2.0"; "<3.0"]) "Beta",
                true, [])] [] [])
           true []).
  reflexivity.
Defined.
